(** * ITCompiler: the lexical analyzer and its persisted symbol table

    A shallow embedding of [src/ITCompiler.py]: the classes [CustomLanguage]
    (keyword list), [SymbolTable] (token log with its backing file) and
    [LexicalAnalyzer] (the line-by-line scanner).  The Qt editor around them
    is not modelled.

    Conventions of the embedding.
    - A Python [str] is a [string]; a character of it is an [ascii], read as
      the code point of that number, U+0000 to U+00FF: [ascii_of_nat 241] is
      the letter n with tilde, [ascii_of_nat 160] the no-break space.  The
      character predicates [isspace], [isalpha], [isdecimal], [isdigit],
      [isnumeric] and [isalnum] are Python's on these 256 code points, the
      letters, digits and spaces above U+007F included.  A text with a
      character above U+00FF has no counterpart in the embedding.
    - A Python [int] stored in an entry or printed in a message is a [Z]; a
      cursor into a line is a [nat].
    - The file system is a function from file names to contents; every method
      that touches the backing file takes the file system and returns the new
      one.
    - A [while] loop is [while_loop] with a bound on the number of
      iterations; [None] is "bound exhausted", and the theorems show that the
      bounds used are never exhausted.
    - An exception ([ValueError] out of [int]) is the constructor [Raise].
    - Files are read and written as on a POSIX system with a UTF-8 locale: a
      newline written is one LF; on reading, CR LF and a lone CR become LF;
      every character is read back as it was written.
    - The fixed words of the three error messages are written as literals,
      which hold each of their accented letters as the two bytes of its UTF-8
      encoding; no function of the program inspects them. *)

From Stdlib Require Import ZArith String Ascii List Bool Arith Lia Sorted.
From Stdlib Require Import DecimalString DecimalPos DecimalZ.
Import ListNotations.

Open Scope string_scope.
Open Scope bool_scope.

(** ** Python built-ins used by the program *)

Definition code_point (c : ascii) : nat := nat_of_ascii c.

Definition between (lo hi : nat) (c : ascii) : bool :=
  (lo <=? code_point c)%nat && (code_point c <=? hi)%nat.

(** [str.isspace]: TAB, LF, VT, FF, CR, the separators FS..US, SPACE, the
    next-line control U+0085 and the no-break space U+00A0. *)
Definition isspace (c : ascii) : bool :=
  between 9 13 c || between 28 31 c || (code_point c =? 32)%nat
  || (code_point c =? 133)%nat || (code_point c =? 160)%nat.

(** [str.isalpha], the letters: A-Z, a-z, the ordinal indicators U+00AA and
    U+00BA, the micro sign U+00B5, and U+00C0..U+00FF without the
    multiplication sign U+00D7 and the division sign U+00F7. *)
Definition isalpha (c : ascii) : bool :=
  between 65 90 c || between 97 122 c
  || (code_point c =? 170)%nat || (code_point c =? 181)%nat
  || (code_point c =? 186)%nat
  || between 192 214 c || between 216 246 c || between 248 255 c.

(** [str.isdecimal]: 0-9. *)
Definition isdecimal (c : ascii) : bool := between 48 57 c.

(** [str.isdigit]: 0-9 and the superscripts two, three (U+00B2, U+00B3) and
    one (U+00B9). *)
Definition isdigit (c : ascii) : bool :=
  isdecimal c || between 178 179 c || (code_point c =? 185)%nat.

(** [str.isnumeric]: the digits and the fractions U+00BC..U+00BE. *)
Definition isnumeric (c : ascii) : bool := isdigit c || between 188 190 c.

(** [str.isalnum]: a letter, a decimal, a digit or a numeric character. *)
Definition isalnum (c : ascii) : bool :=
  isalpha c || isdecimal c || isdigit c || isnumeric c.

Definition LF : ascii := ascii_of_nat 10.
Definition CR : ascii := ascii_of_nat 13.
Definition TAB : ascii := ascii_of_nat 9.

(** [s[i]]; every use in the program is guarded by [i < len(s)]. *)
Definition char_at (s : string) (i : nat) : ascii :=
  match String.get i s with
  | Some c => c
  | None => zero
  end.

(** The slice [s[start:stop]]. *)
Definition slice (s : string) (start stop : nat) : string :=
  String.substring start (stop - start) s.

(** [x in l] for a list of strings and for a list of characters. *)
Definition str_in (x : string) (l : list string) : bool :=
  existsb (String.eqb x) l.

Definition char_in (c : ascii) (l : list ascii) : bool :=
  existsb (Ascii.eqb c) l.

(** [str(z)] and the [{z}] of an f-string, for an [int]. *)
Definition str_of_int (z : Z) : string :=
  NilZero.string_of_int (Z.to_int z).

(** [s.split(sep)] for a separator of one character. *)
Fixpoint split (sep : ascii) (s : string) : list string :=
  match s with
  | EmptyString => [EmptyString]
  | String c r =>
      if Ascii.eqb c sep then EmptyString :: split sep r
      else match split sep r with
           | h :: t => String c h :: t
           | [] => [String c EmptyString]
           end
  end.

(** Reading in text mode turns CR LF and a lone CR into LF. *)
Fixpoint universal_newlines (s : string) : string :=
  match s with
  | EmptyString => EmptyString
  | String c r =>
      if Ascii.eqb c CR then
        match r with
        | String d r' =>
            if Ascii.eqb d LF then String LF (universal_newlines r')
            else String LF (universal_newlines r)
        | EmptyString => String LF EmptyString
        end
      else String c (universal_newlines r)
  end.

(** Lines of a text, each with its terminating LF when it has one. *)
Fixpoint keepends (s : string) : list string :=
  match s with
  | EmptyString => []
  | String c r =>
      if Ascii.eqb c LF then String LF EmptyString :: keepends r
      else match keepends r with
           | h :: t => String c h :: t
           | [] => [String c EmptyString]
           end
  end.

(** [f.readlines()] on a file opened with mode ['r']. *)
Definition readlines (contents : string) : list string :=
  keepends (universal_newlines contents).

Fixpoint lstrip (s : string) : string :=
  match s with
  | EmptyString => EmptyString
  | String c r => if isspace c then lstrip r else s
  end.

Fixpoint rstrip (s : string) : string :=
  match s with
  | EmptyString => EmptyString
  | String c r =>
      match rstrip r with
      | EmptyString => if isspace c then EmptyString else String c EmptyString
      | r' => String c r'
      end
  end.

(** [s.strip()]. *)
Definition strip (s : string) : string := rstrip (lstrip s).

(** Outcome of a call that may raise. *)
Inductive result (A : Type) : Type :=
| Ok (a : A)
| Raise.
Arguments Ok {A} a.
Arguments Raise {A}.

(** The digits of an [int] literal: decimal digits (the superscripts are
    no digits here), single underscores allowed between two digits. *)
Fixpoint int_digits (s : string) (acc : Z) (after_digit : bool) : result Z :=
  match s with
  | EmptyString => if after_digit then Ok acc else Raise
  | String c r =>
      if Ascii.eqb c "_" then
        if after_digit then int_digits r acc false else Raise
      else if isdecimal c then
        int_digits r (10 * acc + Z.of_nat (code_point c - 48)) true
      else Raise
  end.

(** The whitespace [int] accepts around a literal: TAB, LF, VT, FF, CR,
    SPACE, U+0085 and U+00A0; the separators FS..US, which [str.strip]
    removes, are refused by [int]. *)
Definition int_space (c : ascii) : bool :=
  between 9 13 c || (code_point c =? 32)%nat
  || (code_point c =? 133)%nat || (code_point c =? 160)%nat.

Fixpoint int_lstrip (s : string) : string :=
  match s with
  | EmptyString => EmptyString
  | String c r => if int_space c then int_lstrip r else s
  end.

Fixpoint int_rstrip (s : string) : string :=
  match s with
  | EmptyString => EmptyString
  | String c r =>
      match int_rstrip r with
      | EmptyString => if int_space c then EmptyString else String c EmptyString
      | r' => String c r'
      end
  end.

(** [int(s)] for a string: surrounding whitespace is dropped, one sign is
    allowed, anything else raises [ValueError]. *)
Definition int (s : string) : result Z :=
  match int_rstrip (int_lstrip s) with
  | String "+" r => int_digits r 0 false
  | String "-" r =>
      match int_digits r 0 false with
      | Ok z => Ok (- z)%Z
      | Raise => Raise
      end
  | s' => int_digits s' 0 false
  end.

(** [enumerate(l, start)]. *)
Fixpoint enumerate {A : Type} (l : list A) (start : Z) : list (Z * A) :=
  match l with
  | [] => []
  | x :: r => (start, x) :: enumerate r (start + 1)
  end.

(** ** Loops *)

(** How one iteration of a loop body ends: it falls through or executes
    [continue] ([Next]), or it executes [break] ([Stop]). *)
Inductive flow (S : Type) : Type :=
| Next (s : S)
| Stop (s : S).
Arguments Next {S} s.
Arguments Stop {S} s.

(** [while cond: body], allowed at most [fuel] iterations. *)
Fixpoint while_loop {S : Type} (fuel : nat) (cond : S -> bool)
    (body : S -> option (flow S)) (s : S) : option S :=
  if cond s then
    match fuel with
    | O => None
    | Datatypes.S fuel' =>
        match body s with
        | Some (Next s') => while_loop fuel' cond body s'
        | Some (Stop s') => Some s'
        | None => None
        end
    end
  else Some s.

(** ** class CustomLanguage *)

Module CustomLanguage.

Definition KEYWORDS : list string :=
  ["if"; "else"; "while"; "for"; "function"; "return";
   "int"; "float"; "string"; "bool"; "true"; "false";
   "print"; "input"; "and"; "or"; "not"].

End CustomLanguage.

(** ** The backing store *)

Definition FileSystem : Type := string -> option string.

(** [os.path.exists]. *)
Definition exists_ (fs : FileSystem) (name : string) : bool :=
  match fs name with
  | Some _ => true
  | None => false
  end.

(** [open(name, 'w')] followed by writing [contents] and closing. *)
Definition write_file (fs : FileSystem) (name contents : string) : FileSystem :=
  fun f => if String.eqb f name then Some contents else fs f.

(** ** class SymbolTable *)

(** One entry of [self.symbols]: the dict with keys "type", "value", "line". *)
Record Symbol : Type := mkSymbol {
  type : string;
  value : string;
  line : Z
}.

Module SymbolTable.

Record t : Type := mk {
  filename : string;
  symbols : list Symbol
}.

Definition nl : string := String LF EmptyString.
Definition tab : string := String TAB EmptyString.

(** The eleven lines [_create_file] writes. *)
Definition long_header : string :=
  "=== TABLA DE SIMBOLOS ===" ++ nl ++
  "Formato: Tipo | Valor | Linea" ++ nl ++
  "---------------------------" ++ nl ++
  "TIPOS POSIBLES:" ++ nl ++
  "- PALABRA_RESERVADA" ++ nl ++
  "- IDENTIFICADOR" ++ nl ++
  "- NUMERO_ENTERO" ++ nl ++
  "- NUMERO_DECIMAL" ++ nl ++
  "- STRING" ++ nl ++
  "- OPERADOR" ++ nl ++
  "---------------------------" ++ nl.

Definition _create_file (self : t) (fs : FileSystem) : FileSystem :=
  if negb (exists_ fs (filename self)) then
    write_file fs (filename self) long_header
  else fs.

(** The three lines [save] writes before the rows. *)
Definition header : string :=
  "=== TABLA DE SIMBOLOS ===" ++ nl ++
  "Formato: Tipo | Valor | Linea" ++ nl ++
  "---------------------------" ++ nl.

Definition row (symbol : Symbol) : string :=
  type symbol ++ tab ++ value symbol ++ tab ++ str_of_int (line symbol) ++ nl.

Definition save (self : t) (fs : FileSystem) : FileSystem :=
  write_file fs (filename self)
    (header ++ String.concat "" (map row (symbols self))).

(** The body of [for line in lines[8:]] in [load], on the list built so far. *)
Definition load_line (acc : list Symbol) (ln : string) : result (list Symbol) :=
  let parts := split TAB (strip ln) in
  match parts with
  | [p0; p1; p2] =>
      match int p2 with
      | Ok z => Ok (acc ++ [mkSymbol p0 p1 z])%list
      | Raise => Raise
      end
  | _ => Ok acc
  end.

Fixpoint load_lines (acc : list Symbol) (lines : list string)
    : result (list Symbol) :=
  match lines with
  | [] => Ok acc
  | ln :: rest =>
      match load_line acc ln with
      | Ok acc' => load_lines acc' rest
      | Raise => Raise
      end
  end.

Definition load (self : t) (fs : FileSystem) : result t :=
  match fs (filename self) with
  | Some contents =>
      let lines := readlines contents in
      match load_lines (symbols self) (skipn 8 lines) with
      | Ok syms => Ok (mk (filename self) syms)
      | Raise => Raise
      end
  | None => Ok self
  end.

(** [SymbolTable(filename)]: the new table and the file system after it. *)
Definition __init__ (filename : string) (fs : FileSystem)
    : result t * FileSystem :=
  let self := mk filename [] in
  let fs := _create_file self fs in
  (load self fs, fs).

Definition add_symbol (token_type token_value : string) (line_number : Z)
    (self : t) (fs : FileSystem) : t * FileSystem :=
  let symbol := mkSymbol token_type token_value line_number in
  let self := mk (filename self) (symbols self ++ [symbol])%list in
  (self, save self fs).

Definition clear (self : t) (fs : FileSystem) : t * FileSystem :=
  let self := mk (filename self) [] in
  (self, save self fs).

End SymbolTable.

(** ** class LexicalAnalyzer *)

Module LexicalAnalyzer.

Record t : Type := mk {
  symbol_table : SymbolTable.t;
  errors : list string
}.

Definition DQUOTE : ascii := ascii_of_nat 34.

Definition operators : list ascii :=
  ["+"; "-"; "*"; "/"; "="; "!"; "<"; ">"; "&"; "|";
   "("; ")"; "{"; "}"; "["; "]"; ";"; ","]%char.

Definition two_char_operators : list string :=
  ["=="; "!="; "<="; ">="; "&&"; "||"].

(** The three messages of [tokenize_line]. *)
Definition error_multiple_points (line_num : Z) : string :=
  "Error léxico en línea " ++ str_of_int line_num ++
  ": Número con múltiples puntos decimales".

Definition error_unterminated (line_num : Z) : string :=
  "Error léxico en línea " ++ str_of_int line_num ++ ": String no cerrado".

Definition error_unrecognized (line_num : Z) (char : ascii) : string :=
  "Error léxico en línea " ++ str_of_int line_num ++
  ": Carácter no reconocido '" ++ String char "'".

(** [while i < n and (line[i].isalnum() or line[i] == '_'): i += 1] *)
Definition identifier_loop (line : string) (i : nat) : option nat :=
  let n := String.length line in
  while_loop n
    (fun i => (i <? n)%nat &&
              (isalnum (char_at line i) || Ascii.eqb (char_at line i) "_"))
    (fun i => Some (Next (i + 1)))
    i.

(** [while i < n and line[i] != DQUOTE: i += 1] *)
Definition string_loop (line : string) (i : nat) : option nat :=
  let n := String.length line in
  while_loop n
    (fun i => (i <? n)%nat && negb (Ascii.eqb (char_at line i) DQUOTE))
    (fun i => Some (Next (i + 1)))
    i.

Section Scanner.

(** The scanner reaches its object through two calls only,
    [self.symbol_table.add_symbol(...)] and [self.errors.append(...)]; it is
    written over any state [St] that offers them. *)
Context {St : Type}.
Variable add_symbol : string -> string -> Z -> St -> St.
Variable errors_append : string -> St -> St.

(** The loop over the digits and points of a number; its state is the
    cursor, [has_decimal] and the analyzer.
    [while i < n and (line[i].isdigit() or line[i] == '.'): ...] *)
Definition number_cond (line : string) (st : nat * bool * St) : bool :=
  let '(i, _, _) := st in
  (i <? String.length line)%nat &&
  (isdigit (char_at line i) || Ascii.eqb (char_at line i) ".").

Definition number_body (line : string) (line_num : Z)
    (st : nat * bool * St) : option (flow (nat * bool * St)) :=
  let '(i, has_decimal, s) := st in
  if Ascii.eqb (char_at line i) "." then
    if has_decimal then
      Some (Stop (i, has_decimal,
                  errors_append (error_multiple_points line_num) s))
    else Some (Next (i + 1, true, s))
  else Some (Next (i + 1, has_decimal, s)).

Definition number_loop (line : string) (line_num : Z)
    (st : nat * bool * St) : option (nat * bool * St) :=
  while_loop (String.length line) (number_cond line)
    (number_body line line_num) st.

(** The test [i < n] of the loop of [tokenize_line]. *)
Definition in_line (line : string) (st : nat * St) : bool :=
  let '(i, _) := st in (i <? String.length line)%nat.

(** One iteration of [while i < n] in [tokenize_line], from cursor [i]. *)
Definition tokenize_body (line : string) (line_num : Z)
    (st : nat * St) : option (flow (nat * St)) :=
  let '(i, s) := st in
  let n := String.length line in
  let char := char_at line i in
  if isspace char then Some (Next (i + 1, s))
  else if isalpha char || Ascii.eqb char "_" then
    let start := i in
    match identifier_loop line i with
    | None => None
    | Some i =>
        let identifier := slice line start i in
        if str_in identifier CustomLanguage.KEYWORDS then
          Some (Next (i, add_symbol "PALABRA_RESERVADA" identifier line_num s))
        else
          Some (Next (i, add_symbol "IDENTIFICADOR" identifier line_num s))
    end
  else if isdigit char then
    let start := i in
    match number_loop line line_num (i, false, s) with
    | None => None
    | Some (i, has_decimal, s) =>
        let number := slice line start i in
        if has_decimal then
          Some (Next (i, add_symbol "NUMERO_DECIMAL" number line_num s))
        else
          Some (Next (i, add_symbol "NUMERO_ENTERO" number line_num s))
    end
  else if Ascii.eqb char DQUOTE then
    let start := i in
    match string_loop line (i + 1) with
    | None => None
    | Some i =>
        if (n <=? i)%nat then
          Some (Stop (i, errors_append (error_unterminated line_num) s))
        else
          let i := i + 1 in
          let string_literal := slice line start i in
          Some (Next (i, add_symbol "STRING" string_literal line_num s))
    end
  else if (i + 1 <? n)%nat && Ascii.eqb (char_at line i) "/"
          && Ascii.eqb (char_at line (i + 1)) "/" then
    Some (Stop (i, s))
  else if char_in char operators then
    let single :=
      Some (Next (i + 1, add_symbol "OPERADOR" (String char "") line_num s)) in
    if (i + 1 <? n)%nat then
      let two_char_op := String char (String (char_at line (i + 1)) "") in
      if str_in two_char_op two_char_operators then
        Some (Next (i + 2, add_symbol "OPERADOR" two_char_op line_num s))
      else single
    else single
  else
    Some (Next (i + 1, errors_append (error_unrecognized line_num char) s)).

(** The loop of [tokenize_line] resumed at cursor [i]. *)
Definition tokenize_from (line : string) (line_num : Z) (i : nat) (s : St)
    : option St :=
  option_map snd
    (while_loop (String.length line) (in_line line)
       (tokenize_body line line_num) (i, s)).

Definition tokenize_line (line : string) (line_num : Z) (s : St) : option St :=
  tokenize_from line line_num 0 s.

(** [for line_num, line in enumerate(lines, 1): self.tokenize_line(...)] *)
Fixpoint tokenize_lines (lines : list (Z * string)) (s : St) : option St :=
  match lines with
  | [] => Some s
  | (line_num, line) :: rest =>
      match tokenize_line line line_num s with
      | Some s' => tokenize_lines rest s'
      | None => None
      end
  end.

End Scanner.

(** The analyzer object together with the file system it writes to. *)
Definition state : Type := t * FileSystem.

(** [self.symbol_table.add_symbol(token_type, token_value, line_number)] *)
Definition add_symbol (token_type token_value : string) (line_number : Z)
    (st : state) : state :=
  let '(self, fs) := st in
  let '(table, fs) :=
    SymbolTable.add_symbol token_type token_value line_number
      (symbol_table self) fs in
  (mk table (errors self), fs).

(** [self.errors.append(message)] *)
Definition errors_append (message : string) (st : state) : state :=
  let '(self, fs) := st in
  (mk (symbol_table self) (errors self ++ [message])%list, fs).

(** [LexicalAnalyzer()]; the table is bound to "tabla_simbolos.dat". *)
Definition __init__ (fs : FileSystem) : result t * FileSystem :=
  match SymbolTable.__init__ "tabla_simbolos.dat" fs with
  | (Ok table, fs) => (Ok (mk table []), fs)
  | (Raise, fs) => (Raise, fs)
  end.

Definition analyze (code : string) (st : state) : option state :=
  let '(self, fs) := st in
  let '(table, fs) := SymbolTable.clear (symbol_table self) fs in
  let self := mk table [] in
  let lines := split LF code in
  tokenize_lines add_symbol errors_append (enumerate lines 1) (self, fs).

(** The entries and the errors an analyzer holds. *)
Definition entries (st : state) : list Symbol :=
  SymbolTable.symbols (symbol_table (fst st)).

Definition error_list (st : state) : list string := errors (fst st).

End LexicalAnalyzer.

Import LexicalAnalyzer.

(** ** Auxiliary notions for the statements *)

(** Two outcomes of bounded loops agree up to a relation on states. *)
Definition option_rel {A B : Type} (R : A -> B -> Prop)
    (x : option A) (y : option B) : Prop :=
  match x, y with
  | Some a, Some b => R a b
  | None, None => True
  | _, _ => False
  end.

Definition flow_rel {A B : Type} (R : A -> B -> Prop)
    (x : option (flow A)) (y : option (flow B)) : Prop :=
  match x, y with
  | Some (Next a), Some (Next b) => R a b
  | Some (Stop a), Some (Stop b) => R a b
  | None, None => True
  | _, _ => False
  end.

(** Loop states with the same cursor (and flag) and related analyzers. *)
Definition with_cursor {C A B : Type} (R : A -> B -> Prop)
    (x : C * A) (y : C * B) : Prop :=
  fst x = fst y /\ R (snd x) (snd y).

(** The character of an identifier after its first one. *)
Definition ident_char (c : ascii) : bool := isalnum c || Ascii.eqb c "_".

(** The cursor is at the two slashes that open a comment. *)
Definition comment_start (line : string) (i : nat) : bool :=
  (i + 1 <? String.length line)%nat && Ascii.eqb (char_at line i) "/"
  && Ascii.eqb (char_at line (i + 1)) "/".

(** The loop of [tokenize_line], started in the first state, comes to the
    top of an iteration in the second state. *)
Inductive reaches {St : Type}
    (add : string -> string -> Z -> St -> St) (err : string -> St -> St)
    (line : string) (line_num : Z) : nat * St -> nat * St -> Prop :=
| reaches_here x : reaches add err line line_num x x
| reaches_next i s j s' x :
    i < String.length line ->
    tokenize_body add err line line_num (i, s) = Some (Next (j, s')) ->
    reaches add err line line_num (j, s') x ->
    reaches add err line line_num (i, s) x.

(** The number of tokens the scan of [code] recognizes: the scanner of
    [analyze] run on a counter, where every call of [add_symbol] counts one
    and nothing else changes the count (whitespace, comments and errors
    call nothing that counts). *)
Definition tokens_recognized (code : string) : option nat :=
  tokenize_lines (fun _ _ _ k => S k) (fun _ k => k)
    (enumerate (split LF code) 1) 0.

(** *** The tokens of a text, counted without the scanner

    The states of a scanning state machine that reads a text one character
    after the other: between two lexemes, inside an identifier, inside a
    number (with a point so far, or without), inside a string, inside a
    comment, and on the second character of a two-character operator. *)
Inductive scan_state : Type :=
| Scanning
| InsideIdentifier
| InsideNumber (has_decimal : bool)
| InsideString
| InsideComment
| InsideOperator.

(** The tokens counted from a character [c] met between two lexemes, where
    [r] is the text after [c] and [k q] the number of tokens counted in [r]
    when [r] is entered in state [q]: an identifier, a number and an operator
    count one at their first character, a string counts nothing before its
    closing quote, and whitespace, comments and any other character count
    nothing. *)
Definition scanning_step (k : scan_state -> nat) (c : ascii) (r : string)
    : nat :=
  if isspace c then k Scanning
  else if isalpha c || Ascii.eqb c "_" then S (k InsideIdentifier)
  else if isdigit c then S (k (InsideNumber false))
  else if Ascii.eqb c DQUOTE then k InsideString
  else
    match r with
    | String d _ =>
        if Ascii.eqb c "/" && Ascii.eqb d "/" then k InsideComment
        else if char_in c operators then
          if str_in (String c (String d "")) two_char_operators
          then S (k InsideOperator)
          else S (k Scanning)
        else k Scanning
    | EmptyString => if char_in c operators then S (k Scanning) else k Scanning
    end.

(** The number of tokens of a text entered in state [q].  The machine runs
    once over the whole text, the ends of line included: it has no cursor,
    takes no slice and does not split the text into lines.  An end of line
    ends a comment, and ends a string that has not been closed, which then
    counts for nothing. *)
Fixpoint count_tokens (q : scan_state) (s : string) : nat :=
  match s with
  | EmptyString => 0
  | String c r =>
      let k := fun q' => count_tokens q' r in
      match q with
      | Scanning => scanning_step k c r
      | InsideIdentifier =>
          if isalnum c || Ascii.eqb c "_" then k InsideIdentifier
          else scanning_step k c r
      | InsideNumber has_decimal =>
          if Ascii.eqb c "." then
            if has_decimal then scanning_step k c r
            else k (InsideNumber true)
          else if isdigit c then k (InsideNumber has_decimal)
          else scanning_step k c r
      | InsideString =>
          if Ascii.eqb c DQUOTE then S (k Scanning)
          else if Ascii.eqb c LF then k Scanning
          else k InsideString
      | InsideComment =>
          if Ascii.eqb c LF then k Scanning else k InsideComment
      | InsideOperator => k Scanning
      end
  end.

(** The number of tokens of a text: identifiers and reserved words, numbers,
    closed strings and operators; whitespace and comments are none. *)
Definition token_count (code : string) : nat := count_tokens Scanning code.

(** The text from position [i] on. *)
Fixpoint drop (i : nat) (s : string) : string :=
  match i, s with
  | O, _ => s
  | Datatypes.S i', String _ r => drop i' r
  | Datatypes.S _, EmptyString => EmptyString
  end.

(** Two analyzers hold the same entries and the same errors. *)
Definition same_log (a b : state) : Prop :=
  entries a = entries b /\ error_list a = error_list b.

(** Every character of a string passes a test. *)
Fixpoint string_forall (p : ascii -> bool) (s : string) : bool :=
  match s with
  | EmptyString => true
  | String c r => p c && string_forall p r
  end.

(** A character that is neither a tab nor an end of line. *)
Definition plain_char (c : ascii) : bool :=
  negb (Ascii.eqb c TAB) && negb (Ascii.eqb c LF) && negb (Ascii.eqb c CR).

(** An entry the tab-separated format can hold: no tab and no end of line
    in its type and text, and a type that starts with a character that is
    not whitespace (as the six types of the analyzer do). *)
Definition storable (symbol : Symbol) : Prop :=
  string_forall plain_char (type symbol) = true /\
  string_forall plain_char (value symbol) = true /\
  match type symbol with
  | String c _ => isspace c = false
  | EmptyString => False
  end.

(** No file exists. *)
Definition empty_fs : FileSystem := fun _ => None.

(** The analyzer [LexicalAnalyzer()] builds when no file exists, with the
    file system it leaves. *)
Definition fresh : state :=
  (mk (SymbolTable.mk "tabla_simbolos.dat" []) [],
   write_file empty_fs "tabla_simbolos.dat" SymbolTable.long_header).

(** ** Notions for the further properties *)

(** The six types an entry made by the analyzer carries. *)
Definition token_types : list string :=
  ["PALABRA_RESERVADA"; "IDENTIFICADOR"; "NUMERO_ENTERO"; "NUMERO_DECIMAL";
   "STRING"; "OPERADOR"].

(** [v] is a non-empty slice of [line], of one of the six types. *)
Definition token_of (line ty v : string) : Prop :=
  In ty token_types /\
  exists a b, a < b <= String.length line /\ v = slice line a b.

(** [msg] is one of the three messages the scan of [line] can record. *)
Definition error_of (line : string) (line_num : Z) (msg : string) : Prop :=
  msg = error_multiple_points line_num \/
  msg = error_unterminated line_num \/
  exists i, i < String.length line /\
            msg = error_unrecognized line_num (char_at line i).

(** Occurrences of a character in a string. *)
Fixpoint count_char (c : ascii) (s : string) : nat :=
  match s with
  | EmptyString => 0
  | String d r => (if Ascii.eqb d c then 1 else 0) + count_char c r
  end.

(** The scanner run on a bare log, entries and errors, instead of an
    analyzer: [add_symbol] appends an entry, [errors.append] an error. *)
Definition log : Type := (list Symbol * list string)%type.

Definition log_add (ty v : string) (ln : Z) (lg : log) : log :=
  (fst lg ++ [mkSymbol ty v ln], snd lg)%list.

Definition log_err (msg : string) (lg : log) : log :=
  (fst lg, snd lg ++ [msg])%list.

(** What the scan of one line, on its own, records. *)
Definition scan_line (line : string) (line_num : Z) : log :=
  match tokenize_line log_add log_err line line_num ([], []) with
  | Some lg => lg
  | None => ([], [])
  end.

(** The two calls of the scanner on a counter of calls: [add_symbol] and
    [errors.append] each count one. *)
Definition add_call : string -> string -> Z -> nat -> nat :=
  fun _ _ _ c => S c.

Definition err_call : string -> nat -> nat := fun _ c => S c.

(** The contents [save] gives the file of a table with these entries. *)
Definition saved_contents (symbols : list Symbol) : string :=
  SymbolTable.header ++ String.concat "" (map SymbolTable.row symbols).

(** An entry whose row is one line of the file, with its type before the
    first tab: no end of line in its type and text, no tab in its type, and
    a type that starts with a character that is not whitespace.  Its text
    may hold tabs. *)
Definition one_line (symbol : Symbol) : Prop :=
  string_forall plain_char (type symbol) = true /\
  string_forall (fun c => negb (Ascii.eqb c LF) && negb (Ascii.eqb c CR))
    (value symbol) = true /\
  match type symbol with
  | String c _ => isspace c = false
  | EmptyString => False
  end.

(** The text of the entry holds no tab. *)
Definition tab_free (symbol : Symbol) : bool :=
  (count_char TAB (value symbol) =? 0)%nat.

(** Some characters above U+007F: the no-break space, the superscript two,
    the inverted question mark, the letters e with acute accent and n with
    tilde. *)
Definition NBSP : ascii := ascii_of_nat 160.
Definition SUPERSCRIPT_TWO : ascii := ascii_of_nat 178.
Definition INVERTED_QUESTION : ascii := ascii_of_nat 191.
Definition E_ACUTE : ascii := ascii_of_nat 233.
Definition N_TILDE : ascii := ascii_of_nat 241.

(** * Properties *)

(** ** Loops *)

Section WhileLoop.

Context {S : Type}.
Variable cond : S -> bool.
Variable body : S -> option (flow S).

(** A loop that ends within its bound ends in the same state within any
    larger bound. *)
Lemma while_loop_more_fuel :
  forall fuel fuel' s r,
    while_loop fuel cond body s = Some r ->
    fuel <= fuel' ->
    while_loop fuel' cond body s = Some r.
Proof.
  induction fuel as [|fuel IH]; intros fuel' s r H Hle.
  - simpl in H. destruct fuel'; simpl; destruct (cond s); congruence.
  - destruct fuel' as [|fuel']; [lia|].
    simpl in *. destruct (cond s); [|assumption].
    destruct (body s) as [[s'|s']|]; try congruence.
    apply IH; [assumption|lia].
Qed.

(** Termination: a measure that is positive while the test holds and that
    every continuing iteration decreases bounds the number of iterations. *)
Lemma while_loop_terminates (I : S -> Prop) (m : S -> nat) :
  (forall s, I s -> cond s = true -> 0 < m s) ->
  (forall s, I s -> cond s = true ->
     exists fl, body s = Some fl /\
       match fl with
       | Next s' => I s' /\ m s' < m s
       | Stop _ => True
       end) ->
  forall fuel s, I s -> m s <= fuel ->
    exists r, while_loop fuel cond body s = Some r.
Proof.
  intros Hpos Hbody.
  induction fuel as [|fuel IH]; intros s HI Hm.
  - simpl. destruct (cond s) eqn:Hc; [|eauto].
    specialize (Hpos s HI Hc). lia.
  - simpl. destruct (cond s) eqn:Hc; [|eauto].
    destruct (Hbody s HI Hc) as [fl [Hb Hfl]]. rewrite Hb.
    destruct fl as [s'|s']; [|eauto].
    destruct Hfl as [HI' Hlt]. apply IH; [assumption|lia].
Qed.

(** Partial correctness: an invariant kept by every continuing iteration
    gives the postcondition at the exit, by the test or by [break]. *)
Lemma while_loop_post (I Q : S -> Prop) :
  (forall s, I s -> cond s = false -> Q s) ->
  (forall s fl, I s -> cond s = true -> body s = Some fl ->
     match fl with
     | Next s' => I s'
     | Stop s' => Q s'
     end) ->
  forall fuel s r, I s -> while_loop fuel cond body s = Some r -> Q r.
Proof.
  intros Hexit Hbody.
  induction fuel as [|fuel IH]; intros s r HI H; simpl in H.
  - destruct (cond s) eqn:Hc; [discriminate|].
    injection H as <-. auto.
  - destruct (cond s) eqn:Hc.
    + destruct (body s) as [fl|] eqn:Hb; [|discriminate].
      specialize (Hbody s fl HI Hc Hb).
      destruct fl as [s'|s'].
      * exact (IH s' r Hbody H).
      * injection H as <-. assumption.
    + injection H as <-. auto.
Qed.

(** One iteration. *)
Lemma while_loop_step :
  forall fuel s s',
    cond s = true -> body s = Some (Next s') ->
    while_loop (Datatypes.S fuel) cond body s = while_loop fuel cond body s'.
Proof.
  intros fuel s s' Hc Hb. simpl. rewrite Hc, Hb. reflexivity.
Qed.

(** An iteration that breaks. *)
Lemma while_loop_break :
  forall fuel s s',
    cond s = true -> body s = Some (Stop s') ->
    while_loop (Datatypes.S fuel) cond body s = Some s'.
Proof.
  intros fuel s s' Hc Hb. simpl. rewrite Hc, Hb. reflexivity.
Qed.

(** The test fails. *)
Lemma while_loop_exit :
  forall fuel s, cond s = false -> while_loop fuel cond body s = Some s.
Proof.
  intros fuel s Hc. destruct fuel; simpl; rewrite Hc; reflexivity.
Qed.

End WhileLoop.

(** Two loops whose tests agree and whose bodies keep a relation between
    their states end related, within the same bound. *)
Lemma while_loop_rel {S1 S2 : Type} (R : S1 -> S2 -> Prop)
    (cond1 : S1 -> bool) (cond2 : S2 -> bool)
    (body1 : S1 -> option (flow S1)) (body2 : S2 -> option (flow S2)) :
  (forall s1 s2, R s1 s2 -> cond1 s1 = cond2 s2) ->
  (forall s1 s2, R s1 s2 -> cond1 s1 = true ->
     flow_rel R (body1 s1) (body2 s2)) ->
  forall fuel s1 s2, R s1 s2 ->
    option_rel R (while_loop fuel cond1 body1 s1)
                 (while_loop fuel cond2 body2 s2).
Proof.
  intros Hcond Hbody.
  induction fuel as [|fuel IH]; intros s1 s2 HR; simpl;
    rewrite <- (Hcond s1 s2 HR); destruct (cond1 s1) eqn:Hc; simpl; auto.
  specialize (Hbody s1 s2 HR Hc). unfold flow_rel in Hbody.
  destruct (body1 s1) as [[a|a]|], (body2 s2) as [[b|b]|];
    simpl; try contradiction; auto.
Qed.

(** ** Characters *)

Ltac ascii_cases c :=
  destruct c as [[] [] [] [] [] [] [] []]; vm_compute;
  repeat split; intros; try reflexivity; try discriminate; try contradiction.

Lemma ident_start_ident_char c :
  isalpha c || Ascii.eqb c "_" = true -> ident_char c = true.
Proof.
  unfold ident_char, isalnum. intros H.
  apply orb_true_iff in H as [-> | ->]; [reflexivity|apply orb_true_r].
Qed.

Lemma ident_start_not_space c :
  isalpha c || Ascii.eqb c "_" = true -> isspace c = false.
Proof. ascii_cases c. Qed.

Lemma isdigit_class c :
  isdigit c = true ->
  isspace c = false /\ isalpha c || Ascii.eqb c "_" = false /\
  Ascii.eqb c "." = false.
Proof. ascii_cases c. Qed.

Lemma operator_class c :
  char_in c operators = true ->
  isspace c = false /\ isalpha c || Ascii.eqb c "_" = false /\
  isdigit c = false /\ Ascii.eqb c DQUOTE = false.
Proof. ascii_cases c. Qed.

Lemma dquote_class c :
  Ascii.eqb c DQUOTE = true ->
  isspace c = false /\ isalpha c || Ascii.eqb c "_" = false /\
  isdigit c = false.
Proof. ascii_cases c. Qed.

Lemma point_class c :
  Ascii.eqb c "." = true ->
  isspace c = false /\ isalpha c || Ascii.eqb c "_" = false /\
  isdigit c = false /\ Ascii.eqb c DQUOTE = false /\
  Ascii.eqb c "/" = false /\ char_in c operators = false.
Proof. ascii_cases c. Qed.

Lemma not_operator_not_slash c :
  char_in c operators = false -> Ascii.eqb c "/" = false.
Proof. ascii_cases c. Qed.

(** A character outside the operator set cannot open a comment. *)
Lemma not_operator_not_comment line i :
  char_in (char_at line i) operators = false -> comment_start line i = false.
Proof.
  intros H. unfold comment_start.
  rewrite (not_operator_not_slash _ H), andb_false_r. reflexivity.
Qed.

(** Membership in a list of strings is membership up to equality of
    strings, character by character. *)
Lemma str_in_In x l : str_in x l = true <-> In x l.
Proof.
  unfold str_in. rewrite existsb_exists. split.
  - intros [y [Hin Heq]]. apply String.eqb_eq in Heq. subst. assumption.
  - intros Hin. exists x. split; [assumption|apply String.eqb_refl].
Qed.

(** ** Slices *)

(** The slice [s[start:stop]] holds the characters of [s] from [start] up
    to, and without, [stop]. *)
Lemma slice_get s start stop k :
  k < stop - start ->
  String.get k (slice s start stop) = String.get (start + k) s.
Proof.
  intros Hk. unfold slice. rewrite substring_correct1 by assumption.
  f_equal. lia.
Qed.

Lemma length_substring s : forall n m,
  n + m <= String.length s -> String.length (String.substring n m s) = m.
Proof.
  induction s as [|c s IH]; intros n m H; simpl in *.
  - destruct n, m; simpl; lia.
  - destruct n as [|n].
    + destruct m as [|m]; simpl; [reflexivity|].
      rewrite IH; [reflexivity|lia].
    + apply IH. lia.
Qed.

Lemma slice_length s start stop :
  start <= stop <= String.length s ->
  String.length (slice s start stop) = stop - start.
Proof.
  intros H. unfold slice. apply length_substring. lia.
Qed.

(** ** The inner loops of [tokenize_line] *)

(** A loop that moves a cursor right while a test on the position holds
    stops at the first position, from its start, where the test fails or the
    line ends. *)
Lemma cursor_loop_spec (n : nat) (p : nat -> bool) (i : nat) :
  exists j,
    while_loop n (fun i => (i <? n)%nat && p i)
      (fun i => Some (Next (i + 1))) i = Some j /\
    i <= j /\
    (forall k, i <= k < j -> k < n /\ p k = true) /\
    (j <? n)%nat && p j = false.
Proof.
  destruct (while_loop_terminates
              (fun i => (i <? n)%nat && p i) (fun i => Some (Next (i + 1)))
              (fun _ => True) (fun i => n - i)) with (fuel := n) (s := i)
    as [j Hj]; auto; try lia.
  - intros s _ Hc. apply andb_true_iff in Hc as [Hlt _].
    apply Nat.ltb_lt in Hlt. lia.
  - intros s _ Hc. apply andb_true_iff in Hc as [Hlt _].
    apply Nat.ltb_lt in Hlt. eexists. split; [reflexivity|]. split; [auto|lia].
  - exists j. split; [assumption|].
    apply (while_loop_post
             (fun i => (i <? n)%nat && p i) (fun i => Some (Next (i + 1)))
             (fun j => i <= j /\ forall k, i <= k < j -> k < n /\ p k = true)
             (fun j => i <= j /\
                       (forall k, i <= k < j -> k < n /\ p k = true) /\
                       (j <? n)%nat && p j = false))
      with (fuel := n) (s := i) (r := j); auto.
    + intros s [Hle Hall] Hc. auto.
    + intros s fl [Hle Hall] Hc Hb. injection Hb as <-.
      apply andb_true_iff in Hc as [Hlt Hp]. apply Nat.ltb_lt in Hlt.
      split; [lia|]. intros k Hk.
      destruct (Nat.eq_dec k s) as [->|Hne]; [auto|apply Hall; lia].
    + split; [lia|]. intros k Hk. lia.
Qed.

Lemma identifier_loop_spec (line : string) (i : nat) :
  exists j,
    identifier_loop line i = Some j /\
    i <= j /\
    (forall k, i <= k < j ->
       k < String.length line /\ ident_char (char_at line k) = true) /\
    (j <? String.length line)%nat && ident_char (char_at line j) = false.
Proof.
  exact (cursor_loop_spec (String.length line)
           (fun i => ident_char (char_at line i)) i).
Qed.

Lemma string_loop_spec (line : string) (i : nat) :
  exists j,
    string_loop line i = Some j /\
    i <= j /\
    (forall k, i <= k < j ->
       k < String.length line /\ Ascii.eqb (char_at line k) DQUOTE = false) /\
    (j <? String.length line)%nat
    && negb (Ascii.eqb (char_at line j) DQUOTE) = false.
Proof.
  destruct (cursor_loop_spec (String.length line)
              (fun i => negb (Ascii.eqb (char_at line i) DQUOTE)) i)
    as [j [H1 [H2 [H3 H4]]]].
  exists j. repeat split; try assumption.
  - apply H3. assumption.
  - apply negb_true_iff. apply H3. assumption.
Qed.

Section ScannerFacts.

Context {St : Type}.
Variable add_symbol : string -> string -> Z -> St -> St.
Variable errors_append : string -> St -> St.

(** The number loop ends, whatever its start. *)
Lemma number_loop_total line line_num st :
  exists r, number_loop errors_append line line_num st = Some r.
Proof.
  unfold number_loop.
  apply (while_loop_terminates _ _ (fun _ => True)
           (fun '(i, _, _) => String.length line - i)); auto.
  - intros [[i h] s] _ Hc. apply andb_true_iff in Hc as [Hlt _].
    apply Nat.ltb_lt in Hlt. lia.
  - intros [[i h] s] _ Hc. apply andb_true_iff in Hc as [Hlt _].
    apply Nat.ltb_lt in Hlt. unfold number_body.
    destruct (Ascii.eqb (char_at line i) "."); [destruct h|];
      eexists; (split; [reflexivity|]); simpl; auto; split; auto; lia.
  - destruct st as [[i h] s]. lia.
Qed.

(** Started at a digit, it ends to the right of its start. *)
Lemma number_loop_advances line line_num i s :
  i < String.length line ->
  isdigit (char_at line i) = true ->
  exists j h s',
    number_loop errors_append line line_num (i, false, s) = Some (j, h, s') /\
    i < j <= String.length line.
Proof.
  intros Hlt Hdig.
  destruct (number_loop_total line line_num (i, false, s)) as [[[j h] s'] Hr].
  exists j, h, s'. split; [assumption|].
  unfold number_loop in Hr.
  destruct (String.length line) as [|n'] eqn:Hn; [lia|].
  destruct (isdigit_class _ Hdig) as [_ [_ Hpt]].
  rewrite (while_loop_step _ _ n' (i, false, s) (i + 1, false, s)) in Hr.
  - apply (while_loop_post (number_cond line)
             (number_body errors_append line line_num)
             (fun '(j, _, _) => i < j <= String.length line)
             (fun '(j, _, _) => i < j <= String.length line))
      with (fuel := n') (s := (i + 1, false, s)) (r := (j, h, s')) in Hr;
      try assumption.
    + rewrite Hn in Hr. assumption.
    + intros [[k hk] sk] HI _. assumption.
    + intros [[k hk] sk] fl HI Hc Hb. unfold number_body in Hb.
      unfold number_cond in Hc.
      apply andb_true_iff in Hc as [Hk _]. apply Nat.ltb_lt in Hk.
      destruct (Ascii.eqb (char_at line k) "."); [destruct hk|];
        injection Hb as <-; lia.
    + lia.
  - unfold number_cond. rewrite Hn. rewrite Hdig.
    apply andb_true_iff. split; [apply Nat.ltb_lt; lia|reflexivity].
  - unfold number_body. rewrite Hpt. reflexivity.
Qed.

(** A run of digits with a point at [d1] and a second point at [d2]: the
    loop reports the error and leaves the cursor on the second point. *)
Lemma number_loop_second_point line line_num i d1 d2 s :
  i <= d1 -> d1 < d2 -> d2 < String.length line ->
  (forall k, i <= k < d2 -> k <> d1 -> isdigit (char_at line k) = true) ->
  char_at line d1 = "."%char -> char_at line d2 = "."%char ->
  number_loop errors_append line line_num (i, false, s) =
  Some (d2, true, errors_append (error_multiple_points line_num) s).
Proof.
  intros H1 H2 H3 Hdig Hd1 Hd2.
  destruct (number_loop_total line line_num (i, false, s)) as [r Hr].
  rewrite Hr. f_equal.
  unfold number_loop in Hr.
  apply (while_loop_post (number_cond line)
           (number_body errors_append line line_num)
           (fun '(j, h, s') => i <= j <= d2 /\ h = (d1 <? j)%nat /\ s' = s)
           (fun r => r = (d2, true,
                          errors_append (error_multiple_points line_num) s)))
    with (fuel := String.length line) (s := (i, false, s)); try assumption.
  - intros [[j h] s'] [Hj [Hh Hs]] Hc. exfalso.
    unfold number_cond in Hc.
    assert (Hlt : (j <? String.length line)%nat = true)
      by (apply Nat.ltb_lt; lia).
    rewrite Hlt in Hc. simpl in Hc.
    destruct (Nat.eq_dec j d2) as [->|Hne2].
    + rewrite Hd2 in Hc. discriminate.
    + destruct (Nat.eq_dec j d1) as [->|Hne1].
      * rewrite Hd1 in Hc. discriminate.
      * rewrite (Hdig j) in Hc; [discriminate|lia|assumption].
  - intros [[j h] s'] fl [Hj [Hh Hs]] Hc Hb. subst s'.
    unfold number_body in Hb.
    destruct (Ascii.eqb (char_at line j) ".") eqn:Hpt.
    + destruct (Nat.eq_dec j d2) as [->|Hne2].
      * assert (Hh' : h = true) by (rewrite Hh; apply Nat.ltb_lt; lia).
        rewrite Hh' in Hb. injection Hb as <-. reflexivity.
      * destruct (Nat.eq_dec j d1) as [->|Hne1].
        -- rewrite Nat.ltb_irrefl in Hh. rewrite Hh in Hb.
           injection Hb as <-. repeat split; try lia.
           symmetry. apply Nat.ltb_lt. lia.
        -- assert (Hd : isdigit (char_at line j) = true)
             by (apply Hdig; [lia|assumption]).
           destruct (isdigit_class _ Hd) as [_ [_ Hnp]]. congruence.
    + injection Hb as <-.
      assert (Hne2 : j <> d2)
        by (intros ->; rewrite Hd2 in Hpt; discriminate).
      assert (Hne1 : j <> d1)
        by (intros ->; rewrite Hd1 in Hpt; discriminate).
      repeat split; try lia. rewrite Hh.
      destruct (d1 <? j)%nat eqn:E1, (d1 <? j + 1)%nat eqn:E2;
        try reflexivity.
      * apply Nat.ltb_lt in E1. apply Nat.ltb_ge in E2. lia.
      * apply Nat.ltb_ge in E1. apply Nat.ltb_lt in E2. lia.
  - repeat split; try lia. symmetry. apply Nat.ltb_ge. assumption.
Qed.

(** ** The loop of [tokenize_line] *)

(** Every iteration moves the cursor to the right, within the line, or
    leaves the loop. *)
Lemma tokenize_body_advances line line_num i s :
  i < String.length line ->
  exists fl,
    tokenize_body add_symbol errors_append line line_num (i, s) = Some fl /\
    match fl with
    | Next (j, _) => i < j <= String.length line
    | Stop _ => True
    end.
Proof.
  intros Hlt. unfold tokenize_body.
  destruct (isspace (char_at line i)).
  { eexists. split; [reflexivity|]. simpl. lia. }
  destruct (isalpha (char_at line i) || Ascii.eqb (char_at line i) "_")
    eqn:Hstart.
  { destruct (identifier_loop_spec line i) as [j [Hj [Hle [Hall Hend]]]].
    rewrite Hj.
    assert (Hij : i < j <= String.length line).
    { destruct (Nat.eq_dec i j) as [<-|Hne].
      - rewrite (ident_start_ident_char _ Hstart) in Hend.
        apply andb_false_iff in Hend as [Hend|Hend]; [|discriminate].
        apply Nat.ltb_ge in Hend. lia.
      - destruct (Hall (j - 1)); lia. }
    destruct (str_in _ _); eexists; (split; [reflexivity|]); exact Hij. }
  destruct (isdigit (char_at line i)) eqn:Hdig.
  { destruct (number_loop_advances line line_num i s Hlt Hdig)
      as [j [h [s' [Hj Hij]]]].
    rewrite Hj.
    destruct h; eexists; (split; [reflexivity|]); exact Hij. }
  destruct (Ascii.eqb (char_at line i) DQUOTE).
  { destruct (string_loop_spec line (i + 1)) as [j [Hj [Hle [Hall Hend]]]].
    rewrite Hj.
    destruct (String.length line <=? j)%nat eqn:Hn.
    - eexists. split; [reflexivity|]. exact Logic.I.
    - apply Nat.leb_gt in Hn.
      eexists. split; [reflexivity|]. simpl. lia. }
  destruct ((i + 1 <? String.length line)%nat
            && Ascii.eqb (char_at line i) "/"
            && Ascii.eqb (char_at line (i + 1)) "/").
  { eexists. split; [reflexivity|]. exact Logic.I. }
  destruct (char_in (char_at line i) operators).
  { destruct (i + 1 <? String.length line)%nat eqn:Hn1.
    - apply Nat.ltb_lt in Hn1.
      destruct (str_in _ two_char_operators);
        eexists; (split; [reflexivity|]); simpl; lia.
    - eexists. split; [reflexivity|]. simpl. lia. }
  eexists. split; [reflexivity|]. simpl. lia.
Qed.

(** The loop of a line ends within its bound, from any cursor. *)
Lemma tokenize_from_total line line_num i s :
  exists r, tokenize_from add_symbol errors_append line line_num i s = Some r.
Proof.
  unfold tokenize_from.
  destruct (while_loop_terminates (in_line line)
              (tokenize_body add_symbol errors_append line line_num)
              (fun _ => True)
              (fun '(i, _) => String.length line - i))
    with (fuel := String.length line) (s := (i, s)) as [[j r] Hr]; auto.
  - intros [k sk] _ Hc. apply Nat.ltb_lt in Hc. lia.
  - intros [k sk] _ Hc. apply Nat.ltb_lt in Hc.
    destruct (tokenize_body_advances line line_num k sk Hc) as [fl [Hb Hfl]].
    exists fl. split; [assumption|].
    destruct fl as [[j sj]|]; [|exact Logic.I]. split; [exact Logic.I|lia].
  - lia.
  - rewrite Hr. simpl. eauto.
Qed.

(** An iteration that continues hands the rest of the line to the loop. *)
Lemma tokenize_from_next line line_num i s j s' :
  i < String.length line ->
  tokenize_body add_symbol errors_append line line_num (i, s)
    = Some (Next (j, s')) ->
  tokenize_from add_symbol errors_append line line_num i s =
  tokenize_from add_symbol errors_append line line_num j s'.
Proof.
  intros Hlt Hb.
  destruct (tokenize_body_advances line line_num i s Hlt) as [fl [Hb' Hfl]].
  rewrite Hb in Hb'. injection Hb' as <-.
  unfold tokenize_from.
  destruct (String.length line) as [|n'] eqn:Hn; [lia|].
  rewrite (while_loop_step _ _ n' (i, s) (j, s'));
    [|unfold in_line; rewrite Hn; apply Nat.ltb_lt; lia|assumption].
  destruct (while_loop_terminates (in_line line)
              (tokenize_body add_symbol errors_append line line_num)
              (fun _ => True)
              (fun '(i, _) => String.length line - i))
    with (fuel := n') (s := (j, s')) as [r Hr]; auto.
  - intros [k sk] _ Hc. apply Nat.ltb_lt in Hc. lia.
  - intros [k sk] _ Hc. apply Nat.ltb_lt in Hc.
    destruct (tokenize_body_advances line line_num k sk Hc) as [fl [Hbk Hk]].
    exists fl. split; [assumption|].
    destruct fl as [[j' sj]|]; [|exact Logic.I]. split; [exact Logic.I|lia].
  - lia.
  - rewrite Hr.
    rewrite (while_loop_more_fuel _ _ n' (Datatypes.S n') (j, s') r Hr);
      [reflexivity|lia].
Qed.

(** An iteration that breaks ends the line. *)
Lemma tokenize_from_stop line line_num i s j s' :
  i < String.length line ->
  tokenize_body add_symbol errors_append line line_num (i, s)
    = Some (Stop (j, s')) ->
  tokenize_from add_symbol errors_append line line_num i s = Some s'.
Proof.
  intros Hlt Hb. unfold tokenize_from.
  destruct (String.length line) as [|n'] eqn:Hn; [lia|].
  rewrite (while_loop_break _ _ n' (i, s) (j, s'));
    [reflexivity|unfold in_line; rewrite Hn; apply Nat.ltb_lt; lia|assumption].
Qed.

(** At the end of the line the loop is over. *)
Lemma tokenize_from_end line line_num i s :
  String.length line <= i ->
  tokenize_from add_symbol errors_append line line_num i s = Some s.
Proof.
  intros Hle. unfold tokenize_from.
  rewrite while_loop_exit; [reflexivity|].
  apply Nat.ltb_ge. assumption.
Qed.

(** The loop over the lines ends. *)
Lemma tokenize_lines_total lines s :
  exists r, tokenize_lines add_symbol errors_append lines s = Some r.
Proof.
  revert s. induction lines as [|[line_num line] rest IH]; intros s; simpl.
  - eauto.
  - unfold tokenize_line.
    destruct (tokenize_from_total line line_num 0 s) as [r Hr].
    rewrite Hr. apply IH.
Qed.

(** The loop resumed where it has come to gives what it gives from the
    start. *)
Lemma tokenize_from_reaches line line_num x y :
  reaches add_symbol errors_append line line_num x y ->
  tokenize_from add_symbol errors_append line line_num (fst x) (snd x) =
  tokenize_from add_symbol errors_append line line_num (fst y) (snd y).
Proof.
  induction 1 as [x|i s j s' x Hlt Hb _ IH]; [reflexivity|].
  simpl in *. rewrite <- IH. apply tokenize_from_next; assumption.
Qed.

End ScannerFacts.

(** ** Two runs of the scanner on related states

    The scanner reads the line only: it never looks at its state.  Run on
    two states related by [R], with calls that keep [R], it takes the same
    path and ends in states related by [R]. *)

Section Simulation.

Context {St1 St2 : Type}.
Variable add1 : string -> string -> Z -> St1 -> St1.
Variable err1 : string -> St1 -> St1.
Variable add2 : string -> string -> Z -> St2 -> St2.
Variable err2 : string -> St2 -> St2.
Variable R : St1 -> St2 -> Prop.
Hypothesis R_add :
  forall ty v ln s1 s2, R s1 s2 -> R (add1 ty v ln s1) (add2 ty v ln s2).
Hypothesis R_err :
  forall msg s1 s2, R s1 s2 -> R (err1 msg s1) (err2 msg s2).

Lemma number_loop_rel line line_num i h s1 s2 :
  R s1 s2 ->
  option_rel (with_cursor R)
    (number_loop err1 line line_num (i, h, s1))
    (number_loop err2 line line_num (i, h, s2)).
Proof.
  intros HR. unfold number_loop.
  apply while_loop_rel.
  - intros [[j1 h1] t1] [[j2 h2] t2] [Hc _]. simpl in Hc.
    injection Hc as -> ->. reflexivity.
  - intros [[j1 h1] t1] [[j2 h2] t2] [Hc Ht] _. simpl in Hc, Ht.
    injection Hc as -> ->. unfold number_body.
    destruct (Ascii.eqb (char_at line j2) "."); [destruct h2|];
      simpl; split; simpl; auto.
  - split; simpl; auto.
Qed.

Lemma tokenize_body_rel line line_num i s1 s2 :
  R s1 s2 ->
  flow_rel (with_cursor R)
    (tokenize_body add1 err1 line line_num (i, s1))
    (tokenize_body add2 err2 line line_num (i, s2)).
Proof.
  intros HR. unfold tokenize_body.
  destruct (isspace (char_at line i)).
  { simpl. split; simpl; auto. }
  destruct (isalpha (char_at line i) || Ascii.eqb (char_at line i) "_").
  { destruct (identifier_loop line i) as [j|]; [|exact Logic.I].
    destruct (str_in _ _); simpl; split; simpl; auto. }
  destruct (isdigit (char_at line i)).
  { pose proof (number_loop_rel line line_num i false s1 s2 HR) as H.
    unfold option_rel in H.
    destruct (number_loop err1 line line_num (i, false, s1))
      as [[[j1 h1] t1]|],
      (number_loop err2 line line_num (i, false, s2)) as [[[j2 h2] t2]|];
      try contradiction; [|exact Logic.I].
    destruct H as [Hc Ht]. simpl in Hc, Ht. injection Hc as -> ->.
    destruct h2; simpl; split; simpl; auto. }
  destruct (Ascii.eqb (char_at line i) DQUOTE).
  { destruct (string_loop line (i + 1)) as [j|]; [|exact Logic.I].
    destruct (String.length line <=? j)%nat; simpl; split; simpl; auto. }
  destruct ((i + 1 <? String.length line)%nat
            && Ascii.eqb (char_at line i) "/"
            && Ascii.eqb (char_at line (i + 1)) "/").
  { simpl. split; simpl; auto. }
  destruct (char_in (char_at line i) operators).
  { destruct (i + 1 <? String.length line)%nat;
      [destruct (str_in _ two_char_operators)|];
      simpl; split; simpl; auto. }
  simpl. split; simpl; auto.
Qed.

Lemma tokenize_from_rel line line_num i s1 s2 :
  R s1 s2 ->
  option_rel R
    (tokenize_from add1 err1 line line_num i s1)
    (tokenize_from add2 err2 line line_num i s2).
Proof.
  intros HR. unfold tokenize_from.
  pose proof (while_loop_rel (with_cursor R)
                (in_line line) (in_line line)
                (tokenize_body add1 err1 line line_num)
                (tokenize_body add2 err2 line line_num)) as H.
  specialize (H ltac:(intros [j1 t1] [j2 t2] [Hc _]; simpl in Hc; subst;
                      reflexivity)).
  specialize (H ltac:(intros [j1 t1] [j2 t2] [Hc Ht] _; simpl in Hc, Ht;
                      subst; apply tokenize_body_rel; assumption)).
  specialize (H (String.length line) (i, s1) (i, s2)
                ltac:(split; simpl; auto)).
  unfold option_rel in *.
  destruct (while_loop _ _ (tokenize_body add1 err1 line line_num) _)
    as [[j1 t1]|],
    (while_loop _ _ (tokenize_body add2 err2 line line_num) _)
    as [[j2 t2]|]; simpl; try contradiction; auto.
  destruct H as [_ Ht]. exact Ht.
Qed.

Lemma tokenize_lines_rel lines s1 s2 :
  R s1 s2 ->
  option_rel R (tokenize_lines add1 err1 lines s1)
               (tokenize_lines add2 err2 lines s2).
Proof.
  revert s1 s2. induction lines as [|[line_num line] rest IH];
    intros s1 s2 HR; simpl.
  - assumption.
  - unfold tokenize_line.
    pose proof (tokenize_from_rel line line_num 0 s1 s2 HR) as H.
    unfold option_rel in H.
    destruct (tokenize_from add1 err1 line line_num 0 s1),
      (tokenize_from add2 err2 line line_num 0 s2);
      try contradiction; [apply IH; assumption|exact Logic.I].
Qed.

End Simulation.

(** ** The analyzer *)

Lemma entries_add_symbol ty v ln st :
  entries (add_symbol ty v ln st) = (entries st ++ [mkSymbol ty v ln])%list.
Proof. destruct st as [self fs]. reflexivity. Qed.

Lemma error_list_add_symbol ty v ln st :
  error_list (add_symbol ty v ln st) = error_list st.
Proof. destruct st as [self fs]. reflexivity. Qed.

Lemma entries_errors_append msg st :
  entries (errors_append msg st) = entries st.
Proof. destruct st as [self fs]. reflexivity. Qed.

Lemma error_list_errors_append msg st :
  error_list (errors_append msg st) = (error_list st ++ [msg])%list.
Proof. destruct st as [self fs]. reflexivity. Qed.

(** [fresh] is what the constructor builds when no file exists. *)
Lemma fresh_is_init :
  LexicalAnalyzer.__init__ empty_fs = (Ok (fst fresh), snd fresh).
Proof. vm_compute. reflexivity. Qed.

Lemma analyze_total code st : exists st', analyze code st = Some st'.
Proof.
  destruct st as [self fs]. unfold analyze. simpl.
  apply tokenize_lines_total.
Qed.

(** [analyze] clears the table and the errors first: what it leaves does
    not depend on the analyzer it starts from. *)
Lemma analyze_same_log code st1 st2 :
  option_rel same_log (analyze code st1) (analyze code st2).
Proof.
  destruct st1 as [self1 fs1], st2 as [self2 fs2]. unfold analyze. simpl.
  apply tokenize_lines_rel.
  - intros ty v ln s1 s2 [He Hr]. split.
    + rewrite !entries_add_symbol. congruence.
    + rewrite !error_list_add_symbol. assumption.
  - intros msg s1 s2 [He Hr]. split.
    + rewrite !entries_errors_append. assumption.
    + rewrite !error_list_errors_append. congruence.
  - split; reflexivity.
Qed.

(** The log of [analyze] from any analyzer is the one computed from the
    fresh analyzer. *)
Lemma analyze_log_from_fresh code st es errs :
  option_map (fun r => (entries r, error_list r)) (analyze code fresh)
    = Some (es, errs) ->
  exists st', analyze code st = Some st' /\
              entries st' = es /\ error_list st' = errs.
Proof.
  intros H. pose proof (analyze_same_log code st fresh) as Hrel.
  unfold option_rel in Hrel.
  destruct (analyze code st) as [r|], (analyze code fresh) as [r0|];
    try contradiction; try discriminate.
  destruct Hrel as [He Hr]. simpl in H. injection H as H1 H2.
  exists r. repeat split; congruence.
Qed.

(** The entries count the calls of [add_symbol]. *)
Lemma analyze_counts code st :
  option_rel (fun r k => length (entries r) = k)
    (analyze code st) (tokens_recognized code).
Proof.
  destruct st as [self fs]. unfold analyze, tokens_recognized. simpl.
  apply tokenize_lines_rel.
  - intros ty v ln s k H. rewrite entries_add_symbol, length_app.
    simpl. lia.
  - intros msg s k H. rewrite entries_errors_append. assumption.
  - reflexivity.
Qed.

(** ** Unterminated strings *)

Lemma eqb_char_at line i c :
  char_at line i = c -> Ascii.eqb (char_at line i) c = true.
Proof. intros ->. apply Ascii.eqb_refl. Qed.

(** An opening quote with no quote after it on the line: the iteration
    reports it and breaks. *)
Lemma tokenize_body_unterminated line line_num i (st : state) :
  i < String.length line ->
  char_at line i = DQUOTE ->
  (forall k, i < k < String.length line -> char_at line k <> DQUOTE) ->
  exists j,
    tokenize_body add_symbol errors_append line line_num (i, st)
      = Some (Stop (j, errors_append (error_unterminated line_num) st)).
Proof.
  intros Hlt Hq Hnone.
  apply eqb_char_at in Hq.
  destruct (dquote_class _ Hq) as [Hsp [Hid Hdig]].
  destruct (string_loop_spec line (i + 1)) as [j [Hj [Hle [_ Hend]]]].
  exists j. unfold tokenize_body. rewrite Hsp, Hid, Hdig, Hq, Hj.
  assert (Hn : (String.length line <=? j)%nat = true).
  { apply Nat.leb_le.
    destruct (Nat.lt_ge_cases j (String.length line)) as [Hjn|]; [|assumption].
    exfalso. apply (Hnone j); [lia|].
    apply andb_false_iff in Hend as [Hend|Hend].
    - apply Nat.ltb_ge in Hend. lia.
    - apply negb_false_iff in Hend. apply Ascii.eqb_eq. assumption. }
  rewrite Hn. reflexivity.
Qed.

(** ** The file of the symbol table *)

(** What [save] writes for an empty table is the three header lines. *)
Lemma save_empty name fs :
  SymbolTable.save (SymbolTable.mk name []) fs name
  = Some SymbolTable.header.
Proof.
  unfold SymbolTable.save, write_file. simpl.
  rewrite String.eqb_refl. reflexivity.
Qed.

(** ** What a fresh table reads back after [save]

    The rows [save] writes are read back faithfully by [load]; only the
    count of skipped lines is at odds with the header [save] writes. *)

Lemma append_nil_r (s : string) : s ++ "" = s.
Proof. induction s as [|c s IH]; simpl; [reflexivity|rewrite IH; reflexivity]. Qed.

Lemma string_forall_app p (a b : string) :
  string_forall p (a ++ b) = string_forall p a && string_forall p b.
Proof.
  induction a as [|c a IH]; simpl; [reflexivity|].
  rewrite IH. apply andb_assoc.
Qed.

Lemma string_forall_impl (p q : ascii -> bool) (s : string) :
  (forall c, p c = true -> q c = true) ->
  string_forall p s = true -> string_forall q s = true.
Proof.
  intros Hpq. induction s as [|c s IH]; simpl; [reflexivity|].
  intros H. apply andb_true_iff in H as [Hc Hs].
  rewrite (Hpq c Hc), (IH Hs). reflexivity.
Qed.

Lemma universal_newlines_id (s : string) :
  string_forall (fun c => negb (Ascii.eqb c CR)) s = true ->
  universal_newlines s = s.
Proof.
  induction s as [|c s IH]; simpl; [reflexivity|].
  intros H. apply andb_true_iff in H as [Hc Hs].
  apply negb_true_iff in Hc. rewrite Hc, (IH Hs). reflexivity.
Qed.

Lemma keepends_line (l rest : string) :
  string_forall (fun c => negb (Ascii.eqb c LF)) l = true ->
  keepends (l ++ String LF rest) = (l ++ String LF "") :: keepends rest.
Proof.
  induction l as [|c l IH]; simpl.
  - intros _. reflexivity.
  - intros H. apply andb_true_iff in H as [Hc Hl].
    apply negb_true_iff in Hc. rewrite Hc, (IH Hl). reflexivity.
Qed.

Lemma lstrip_id c (r : string) :
  isspace c = false -> lstrip (String c r) = String c r.
Proof. intros H. simpl. rewrite H. reflexivity. Qed.

Lemma rstrip_app (s t t' : string) :
  rstrip t = t' -> t' <> "" -> rstrip (s ++ t) = s ++ t'.
Proof.
  intros Ht Hne. induction s as [|c s IH]; simpl; [assumption|].
  rewrite IH. destruct (s ++ t') as [|d u] eqn:E; [|reflexivity].
  destruct s; simpl in E; [contradiction|discriminate].
Qed.

Lemma rstrip_nonspace (d : string) :
  string_forall (fun c => negb (isspace c)) d = true -> rstrip d = d.
Proof.
  induction d as [|c d IH]; simpl; [reflexivity|].
  intros H. apply andb_true_iff in H as [Hc Hd].
  apply negb_true_iff in Hc. rewrite (IH Hd), Hc.
  destruct d; reflexivity.
Qed.

Lemma rstrip_line (d : string) :
  string_forall (fun c => negb (isspace c)) d = true ->
  rstrip (d ++ String LF "") = d.
Proof.
  induction d as [|c d IH]; simpl; [reflexivity|].
  intros H. apply andb_true_iff in H as [Hc Hd].
  apply negb_true_iff in Hc. rewrite (IH Hd), Hc.
  destruct d; reflexivity.
Qed.

Lemma split_field (a b : string) :
  string_forall (fun c => negb (Ascii.eqb c TAB)) a = true ->
  split TAB (a ++ String TAB b) = a :: split TAB b.
Proof.
  induction a as [|c a IH]; simpl.
  - intros _. reflexivity.
  - intros H. apply andb_true_iff in H as [Hc Ha].
    apply negb_true_iff in Hc. rewrite Hc, (IH Ha). reflexivity.
Qed.

Lemma split_last (a : string) :
  string_forall (fun c => negb (Ascii.eqb c TAB)) a = true ->
  split TAB a = [a].
Proof.
  induction a as [|c a IH]; simpl.
  - intros _. reflexivity.
  - intros H. apply andb_true_iff in H as [Hc Ha].
    apply negb_true_iff in Hc. rewrite Hc, (IH Ha). reflexivity.
Qed.

Lemma append_assoc (a b c : string) : (a ++ b) ++ c = a ++ (b ++ c).
Proof.
  induction a as [|x a IH]; simpl; [reflexivity|rewrite IH; reflexivity].
Qed.

(** *** [int] reads back what [str] prints *)

Lemma int_digits_step c r acc b :
  isdecimal c = true ->
  int_digits (String c r) acc b =
  int_digits r (10 * acc + Z.of_nat (code_point c - 48)) true.
Proof.
  intros Hd. simpl. rewrite Hd.
  assert (Hu : Ascii.eqb c "_" = false) by (revert Hd; ascii_cases c).
  rewrite Hu. reflexivity.
Qed.

Lemma digits_of_uint d :
  string_forall isdecimal (NilEmpty.string_of_uint d) = true.
Proof.
  induction d; simpl; try reflexivity; exact IHd.
Qed.

Lemma int_digits_acc d : forall p,
  int_digits (NilEmpty.string_of_uint d) (Z.pos p) true
  = Ok (Z.pos (Pos.of_uint_acc d p)).
Proof.
  induction d as [|d IH|d IH|d IH|d IH|d IH|d IH|d IH|d IH|d IH|d IH];
    intros p; cbn [NilEmpty.string_of_uint Pos.of_uint_acc];
    [reflexivity|..];
    rewrite int_digits_step by reflexivity;
    rewrite <- IH; f_equal;
    cbn [code_point nat_of_ascii]; vm_compute Z.of_nat; lia.
Qed.

Lemma int_digits_uint d : forall b,
  b = true \/ d <> Decimal.Nil ->
  int_digits (NilEmpty.string_of_uint d) 0 b = Ok (Z.of_N (Pos.of_uint d)).
Proof.
  induction d as [|d IH|d IH|d IH|d IH|d IH|d IH|d IH|d IH|d IH|d IH];
    intros b Hb; cbn [NilEmpty.string_of_uint Pos.of_uint].
  - destruct Hb as [->|Hb]; [reflexivity|contradiction].
  - rewrite int_digits_step by reflexivity. apply IH. left. reflexivity.
  - rewrite int_digits_step by reflexivity. apply (int_digits_acc d 1).
  - rewrite int_digits_step by reflexivity. apply (int_digits_acc d 2).
  - rewrite int_digits_step by reflexivity. apply (int_digits_acc d 3).
  - rewrite int_digits_step by reflexivity. apply (int_digits_acc d 4).
  - rewrite int_digits_step by reflexivity. apply (int_digits_acc d 5).
  - rewrite int_digits_step by reflexivity. apply (int_digits_acc d 6).
  - rewrite int_digits_step by reflexivity. apply (int_digits_acc d 7).
  - rewrite int_digits_step by reflexivity. apply (int_digits_acc d 8).
  - rewrite int_digits_step by reflexivity. apply (int_digits_acc d 9).
Qed.

(** A decimal digit and the minus sign are no whitespace, neither for
    [str.strip] nor for [int], and no tab and no end of line. *)
Lemma isdecimal_plain c :
  isdecimal c = true \/ c = "-"%char ->
  isspace c = false /\ int_space c = false /\ plain_char c = true.
Proof.
  intros [H | ->]; [revert H; ascii_cases c|repeat split; reflexivity].
Qed.

Lemma int_lstrip_id c (r : string) :
  int_space c = false -> int_lstrip (String c r) = String c r.
Proof. intros H. simpl. rewrite H. reflexivity. Qed.

Lemma int_rstrip_nonspace (d : string) :
  string_forall (fun c => negb (int_space c)) d = true -> int_rstrip d = d.
Proof.
  induction d as [|c d IH]; simpl; [reflexivity|].
  intros H. apply andb_true_iff in H as [Hc Hd].
  apply negb_true_iff in Hc. rewrite (IH Hd), Hc.
  destruct d; reflexivity.
Qed.

Lemma decimals_no_int_space (s : string) :
  string_forall isdecimal s = true ->
  string_forall (fun c => negb (int_space c)) s = true.
Proof.
  apply string_forall_impl.
  intros x Hx. apply negb_true_iff. apply isdecimal_plain. left. assumption.
Qed.

(** A string of digits is read as the number its digits spell. *)
Lemma int_unsigned (s : string) :
  string_forall isdecimal s = true -> s <> "" ->
  int s = int_digits s 0 false.
Proof.
  intros Hs Hne. unfold int.
  destruct s as [|c r]; [contradiction|].
  pose proof Hs as Hs'. simpl in Hs'.
  apply andb_true_iff in Hs' as [Hc Hr].
  rewrite int_lstrip_id by (apply isdecimal_plain; left; assumption).
  rewrite int_rstrip_nonspace by (apply decimals_no_int_space; assumption).
  revert Hc. clear. destruct c as [[] [] [] [] [] [] [] []];
    vm_compute; intros Hc; try discriminate Hc; reflexivity.
Qed.

Lemma string_of_uint_nonnil d :
  d <> Decimal.Nil ->
  NilZero.string_of_uint d = NilEmpty.string_of_uint d /\
  NilEmpty.string_of_uint d <> "".
Proof.
  destruct d; intros H; try contradiction; split;
    try reflexivity; discriminate.
Qed.

(** The digits [str] prints for a positive number. *)
Lemma int_of_pos p :
  int (NilZero.string_of_uint (Pos.to_uint p)) = Ok (Z.pos p).
Proof.
  destruct (string_of_uint_nonnil _ (DecimalPos.Unsigned.to_uint_nonnil p)) as [-> Hne].
  rewrite int_unsigned by (apply digits_of_uint || assumption).
  rewrite int_digits_uint by (right; apply DecimalPos.Unsigned.to_uint_nonnil).
  rewrite DecimalPos.Unsigned.of_to. reflexivity.
Qed.

Lemma int_str_of_int (z : Z) : int (str_of_int z) = Ok z.
Proof.
  destruct z as [|p|p]; unfold str_of_int; simpl.
  - reflexivity.
  - apply int_of_pos.
  - destruct (string_of_uint_nonnil _ (DecimalPos.Unsigned.to_uint_nonnil p))
      as [E Hne].
    rewrite E. unfold int.
    rewrite int_lstrip_id by reflexivity.
    rewrite int_rstrip_nonspace.
    + rewrite int_digits_uint by (right; apply DecimalPos.Unsigned.to_uint_nonnil).
      rewrite DecimalPos.Unsigned.of_to. reflexivity.
    + simpl. apply decimals_no_int_space, digits_of_uint.
Qed.

(** What [str] prints has no whitespace, no tab and no end of line, and is
    not empty. *)
Lemma str_of_int_plain (z : Z) :
  string_forall (fun c => negb (isspace c) && plain_char c) (str_of_int z)
    = true /\
  str_of_int z <> "".
Proof.
  assert (Hd : forall d,
             string_forall (fun c => negb (isspace c) && plain_char c)
               (NilEmpty.string_of_uint d) = true).
  { intros d. apply (string_forall_impl isdecimal); [|apply digits_of_uint].
    intros x Hx. destruct (isdecimal_plain x (or_introl Hx)) as [-> [_ ->]].
    reflexivity. }
  destruct z as [|p|p]; unfold str_of_int; simpl.
  - split; [reflexivity|discriminate].
  - destruct (string_of_uint_nonnil _ (DecimalPos.Unsigned.to_uint_nonnil p))
      as [-> Hne].
    split; [apply Hd|assumption].
  - destruct (string_of_uint_nonnil _ (DecimalPos.Unsigned.to_uint_nonnil p))
      as [-> Hne].
    split; [simpl; apply Hd|discriminate].
Qed.

(** *** Rows *)

Lemma plain_char_facts c :
  plain_char c = true ->
  negb (Ascii.eqb c TAB) = true /\ negb (Ascii.eqb c LF) = true /\
  negb (Ascii.eqb c CR) = true.
Proof.
  unfold plain_char. intros H.
  apply andb_true_iff in H as [H H3]. apply andb_true_iff in H as [H1 H2].
  auto.
Qed.

Lemma storable_fields symbol :
  storable symbol ->
  string_forall (fun c => negb (Ascii.eqb c TAB)) (type symbol) = true /\
  string_forall (fun c => negb (Ascii.eqb c TAB)) (value symbol) = true /\
  string_forall (fun c => negb (Ascii.eqb c LF)) (type symbol) = true /\
  string_forall (fun c => negb (Ascii.eqb c LF)) (value symbol) = true /\
  string_forall (fun c => negb (Ascii.eqb c CR)) (type symbol) = true /\
  string_forall (fun c => negb (Ascii.eqb c CR)) (value symbol) = true.
Proof.
  intros [Hty [Hv _]].
  repeat split;
    (eapply string_forall_impl; [|eassumption]);
    intros c Hc; apply plain_char_facts in Hc; tauto.
Qed.

Lemma str_of_int_fields z :
  string_forall (fun c => negb (isspace c)) (str_of_int z) = true /\
  string_forall (fun c => negb (Ascii.eqb c TAB)) (str_of_int z) = true /\
  string_forall (fun c => negb (Ascii.eqb c LF)) (str_of_int z) = true /\
  string_forall (fun c => negb (Ascii.eqb c CR)) (str_of_int z) = true.
Proof.
  destruct (str_of_int_plain z) as [H _].
  repeat split;
    (eapply string_forall_impl; [|exact H]);
    intros c Hc; apply andb_true_iff in Hc as [Hs Hp];
    apply plain_char_facts in Hp; tauto.
Qed.

(** [strip] removes the end of line of a row and nothing else. *)
Lemma strip_row (ty v d : string) :
  match ty with
  | String c _ => isspace c = false
  | EmptyString => False
  end ->
  string_forall (fun c => negb (isspace c)) d = true -> d <> "" ->
  strip (ty ++ SymbolTable.tab ++ v ++ SymbolTable.tab ++ d ++ SymbolTable.nl)
  = ty ++ SymbolTable.tab ++ v ++ SymbolTable.tab ++ d.
Proof.
  intros Hstart Hd Hne. unfold strip.
  destruct ty as [|c r]; [contradiction|].
  change (String c r ++ ?x) with (String c (r ++ x)).
  rewrite lstrip_id by assumption.
  change (String c (r ++ ?x)) with (String c r ++ x).
  apply rstrip_app; [|discriminate].
  apply rstrip_app; [|destruct v; discriminate].
  apply rstrip_app; [|discriminate].
  apply rstrip_app; [|assumption].
  apply rstrip_line. assumption.
Qed.

(** The body of [for line in lines[8:]] reads back the row of a storable
    entry. *)
Lemma load_line_row acc symbol :
  storable symbol ->
  SymbolTable.load_line acc (SymbolTable.row symbol)
  = Ok (acc ++ [symbol])%list.
Proof.
  intros Hst.
  destruct (storable_fields symbol Hst) as [Hty [Hv _]].
  destruct (str_of_int_fields (line symbol)) as [Hsp [Htab _]].
  destruct (str_of_int_plain (line symbol)) as [_ Hne].
  destruct Hst as [_ [_ Hstart]].
  destruct symbol as [ty v ln]. simpl in *.
  unfold SymbolTable.load_line, SymbolTable.row. cbn [type value line].
  rewrite strip_row by assumption.
  unfold SymbolTable.tab at 1.
  change (String TAB "" ++ ?x) with (String TAB x).
  rewrite split_field by assumption.
  unfold SymbolTable.tab.
  change (String TAB "" ++ ?x) with (String TAB x).
  rewrite split_field by assumption.
  rewrite split_last by assumption.
  rewrite int_str_of_int. reflexivity.
Qed.

Lemma load_lines_rows symbols : forall acc,
  Forall storable symbols ->
  SymbolTable.load_lines acc (map SymbolTable.row symbols)
  = Ok (acc ++ symbols)%list.
Proof.
  induction symbols as [|symbol rest IH]; intros acc H; simpl.
  - rewrite app_nil_r. reflexivity.
  - inversion H as [|x l Hx Hl]; subst.
    rewrite load_line_row by assumption.
    rewrite IH by assumption. rewrite <- app_assoc. reflexivity.
Qed.

(** *** The file [save] writes, line by line *)

Lemma concat_cons (x : string) (xs : list string) :
  String.concat "" (x :: xs) = x ++ String.concat "" xs.
Proof.
  destruct xs as [|y ys]; simpl; [rewrite append_nil_r|]; reflexivity.
Qed.

(** A row is its three fields, separated by tabs, and one end of line. *)
Lemma row_fields symbol (rest : string) :
  SymbolTable.row symbol ++ rest =
  (type symbol ++ SymbolTable.tab ++ value symbol ++ SymbolTable.tab
   ++ str_of_int (line symbol)) ++ String LF rest.
Proof.
  unfold SymbolTable.row. rewrite !append_assoc. reflexivity.
Qed.

Lemma row_no_eol symbol :
  storable symbol ->
  string_forall (fun c => negb (Ascii.eqb c LF))
    (type symbol ++ SymbolTable.tab ++ value symbol ++ SymbolTable.tab
     ++ str_of_int (line symbol)) = true.
Proof.
  intros Hst.
  destruct (storable_fields symbol Hst) as [_ [_ [Hty [Hv _]]]].
  destruct (str_of_int_fields (line symbol)) as [_ [_ [Hd _]]].
  rewrite !string_forall_app, Hty, Hv, Hd. reflexivity.
Qed.

Lemma row_no_cr symbol :
  storable symbol ->
  string_forall (fun c => negb (Ascii.eqb c CR)) (SymbolTable.row symbol)
  = true.
Proof.
  intros Hst.
  destruct (storable_fields symbol Hst) as [_ [_ [_ [_ [Hty Hv]]]]].
  destruct (str_of_int_fields (line symbol)) as [_ [_ [_ Hd]]].
  unfold SymbolTable.row.
  rewrite !string_forall_app, Hty, Hv, Hd. reflexivity.
Qed.

Lemma rows_no_cr symbols :
  Forall storable symbols ->
  string_forall (fun c => negb (Ascii.eqb c CR))
    (String.concat "" (map SymbolTable.row symbols)) = true.
Proof.
  induction 1 as [|symbol rest Hs _ IH]; [reflexivity|].
  cbn [map]. rewrite concat_cons, string_forall_app, IH, row_no_cr by assumption.
  reflexivity.
Qed.

Lemma keepends_rows symbols :
  Forall storable symbols ->
  keepends (String.concat "" (map SymbolTable.row symbols))
  = map SymbolTable.row symbols.
Proof.
  induction 1 as [|symbol rest Hs _ IH]; [reflexivity|].
  cbn [map]. rewrite concat_cons, row_fields.
  rewrite keepends_line by (apply row_no_eol; assumption).
  rewrite IH. f_equal.
  rewrite <- row_fields. apply append_nil_r.
Qed.

(** The lines of the file [save] leaves: three header lines, then one line
    per entry. *)
Lemma readlines_saved symbols :
  Forall storable symbols ->
  readlines
    (SymbolTable.header ++ String.concat "" (map SymbolTable.row symbols))
  = ("=== TABLA DE SIMBOLOS ===" ++ SymbolTable.nl)
    :: ("Formato: Tipo | Valor | Linea" ++ SymbolTable.nl)
    :: ("---------------------------" ++ SymbolTable.nl)
    :: map SymbolTable.row symbols.
Proof.
  intros H. unfold readlines.
  rewrite universal_newlines_id
    by (rewrite string_forall_app, rows_no_cr by assumption; reflexivity).
  change (SymbolTable.header ++ ?x)
    with ("=== TABLA DE SIMBOLOS ===" ++ String LF
          ("Formato: Tipo | Valor | Linea" ++ String LF
           ("---------------------------" ++ String LF x))).
  rewrite !keepends_line by reflexivity.
  rewrite keepends_rows by assumption. reflexivity.
Qed.

Lemma save_contents name symbols fs :
  SymbolTable.save (SymbolTable.mk name symbols) fs name
  = Some (SymbolTable.header
          ++ String.concat "" (map SymbolTable.row symbols)).
Proof.
  unfold SymbolTable.save, write_file. simpl.
  rewrite String.eqb_refl. reflexivity.
Qed.

Lemma Forall_skipn {A : Type} (P : A -> Prop) n : forall l,
  Forall P l -> Forall P (skipn n l).
Proof.
  induction n as [|n IH]; intros l H; simpl; [assumption|].
  destruct H; [constructor|apply IH; assumption].
Qed.

(** After [save], a fresh [SymbolTable] over the same file holds the
    entries of the saved table without its first five: the rows are read
    back as they were written, but [load] skips eight lines where [save]
    writes three header lines. *)
Lemma load_after_save name symbols fs :
  Forall storable symbols ->
  let saved := SymbolTable.save (SymbolTable.mk name symbols) fs in
  SymbolTable.__init__ name saved
  = (Ok (SymbolTable.mk name (skipn 5 symbols)), saved).
Proof.
  intros H saved.
  unfold SymbolTable.__init__, SymbolTable._create_file, exists_,
    SymbolTable.load.
  cbn [SymbolTable.filename SymbolTable.symbols].
  unfold saved. rewrite save_contents. cbn [negb].
  rewrite save_contents, readlines_saved by assumption.
  change (skipn 8 (?a :: ?b :: ?c :: ?l)) with (skipn 5 l).
  rewrite skipn_map, load_lines_rows by (apply Forall_skipn; assumption).
  reflexivity.
Qed.

(** ** The scanner and the state machine count the same tokens *)

Lemma drop_char (s : string) : forall i,
  i < String.length s -> drop i s = String (char_at s i) (drop (i + 1) s).
Proof.
  induction s as [|c s IH]; intros i H; simpl in H; [lia|].
  destruct i as [|i]; [reflexivity|].
  simpl. rewrite IH by lia. reflexivity.
Qed.

Lemma drop_end (s : string) : forall i,
  String.length s <= i -> drop i s = "".
Proof.
  induction s as [|c s IH]; intros i H; destruct i as [|i];
    simpl in *; try reflexivity; try lia.
  apply IH. lia.
Qed.

Lemma string_forall_drop p (s : string) : forall i,
  string_forall p s = true -> string_forall p (drop i s) = true.
Proof.
  induction s as [|c s IH]; intros i H; destruct i as [|i];
    try assumption; try reflexivity.
  simpl in H. apply andb_true_iff in H as [_ H]. simpl. apply IH. assumption.
Qed.

Lemma char_at_no_eol (s : string) (i : nat) :
  string_forall (fun c => negb (Ascii.eqb c LF)) s = true ->
  i < String.length s -> Ascii.eqb (char_at s i) LF = false.
Proof.
  revert i. induction s as [|c s IH]; intros i H Hi; simpl in Hi; [lia|].
  simpl in H. apply andb_true_iff in H as [Hc Hs].
  destruct i as [|i].
  - apply negb_true_iff. exact Hc.
  - apply (IH i Hs). lia.
Qed.

(** The step between two lexemes depends on the next character only. *)
Lemma count_tokens_scanning c r :
  count_tokens Scanning (String c r)
  = scanning_step (fun q => count_tokens q r) c r.
Proof. reflexivity. Qed.

(** Past the end of an identifier, of a number, the machine is between two
    lexemes. *)
Lemma count_tokens_identifier_end (s : string) :
  match s with
  | String c _ => ident_char c = false
  | EmptyString => True
  end ->
  count_tokens InsideIdentifier s = count_tokens Scanning s.
Proof.
  destruct s as [|c r]; [reflexivity|].
  unfold ident_char. intros H. simpl. rewrite H. reflexivity.
Qed.

Lemma count_tokens_number_end h (s : string) :
  match s with
  | String c _ => isdigit c || Ascii.eqb c "." = false
  | EmptyString => True
  end ->
  count_tokens (InsideNumber h) s = count_tokens Scanning s.
Proof.
  destruct s as [|c r]; [reflexivity|].
  intros H. apply orb_false_iff in H as [Hd Hp].
  simpl. rewrite Hd, Hp. reflexivity.
Qed.

(** A comment counts nothing up to the end of its line. *)
Lemma count_tokens_comment (s : string) :
  string_forall (fun c => negb (Ascii.eqb c LF)) s = true ->
  count_tokens InsideComment s = 0.
Proof.
  induction s as [|c s IH]; [reflexivity|].
  simpl. intros H. apply andb_true_iff in H as [Hc Hs].
  apply negb_true_iff in Hc. rewrite Hc. apply IH. assumption.
Qed.

Section MachineOnLine.

Variable line : string.
Hypothesis line_no_eol :
  string_forall (fun c => negb (Ascii.eqb c LF)) line = true.

(** Past the end of the line nothing is left to count. *)
Lemma state_at_end q i :
  String.length line <= i -> count_tokens q (drop i line) = 0.
Proof. intros H. rewrite drop_end by assumption. reflexivity. Qed.

(** Over the characters of an identifier the machine stays inside it. *)
Lemma identifier_run : forall m i j,
  j - i = m -> i <= j ->
  (forall k, i <= k < j ->
     k < String.length line /\ ident_char (char_at line k) = true) ->
  (j <? String.length line)%nat && ident_char (char_at line j) = false ->
  count_tokens InsideIdentifier (drop i line)
  = count_tokens Scanning (drop j line).
Proof.
  induction m as [|m IH]; intros i j Hm Hle Hall Hend.
  - assert (i = j) by lia. subst j.
    apply count_tokens_identifier_end.
    destruct (Nat.lt_ge_cases i (String.length line)) as [Hi|Hi].
    + rewrite drop_char by assumption.
      apply andb_false_iff in Hend as [Hend|Hend]; [|assumption].
      apply Nat.ltb_ge in Hend. lia.
    + rewrite drop_end by assumption. exact Logic.I.
  - destruct (Hall i) as [Hi Hc]; [lia|].
    rewrite drop_char by assumption.
    unfold ident_char in Hc. simpl. rewrite Hc.
    apply IH; try lia; try assumption.
    intros k Hk. apply Hall. lia.
Qed.

(** Over the characters of a string the machine stays inside it. *)
Lemma string_run : forall m i j,
  j - i = m -> i <= j ->
  (forall k, i <= k < j ->
     k < String.length line /\ Ascii.eqb (char_at line k) DQUOTE = false) ->
  count_tokens InsideString (drop i line)
  = count_tokens InsideString (drop j line).
Proof.
  induction m as [|m IH]; intros i j Hm Hle Hall.
  - assert (i = j) by lia. subst j. reflexivity.
  - destruct (Hall i) as [Hi Hc]; [lia|].
    rewrite (drop_char line i) by assumption.
    simpl. rewrite Hc, (char_at_no_eol line i line_no_eol Hi).
    apply IH; try lia.
    intros k Hk. apply Hall. lia.
Qed.

(** The loop over a number, run on a counter of the entries, leaves the
    counter as it is, and ends where the machine leaves the number. *)
Lemma number_loop_counts line_num i (c : nat) r :
  number_loop (fun _ k => k) line line_num (i, false, c) = Some r ->
  let '(j, _, c') := r in
  c' = c /\
  count_tokens Scanning (drop j line)
  = count_tokens (InsideNumber false) (drop i line).
Proof.
  intros Hr. unfold number_loop in Hr.
  apply (while_loop_post (number_cond line)
           (number_body (fun _ k => k) line line_num)
           (fun '(k, h, c') =>
              c' = c /\
              count_tokens (InsideNumber h) (drop k line)
              = count_tokens (InsideNumber false) (drop i line))
           (fun '(k, _, c') =>
              c' = c /\
              count_tokens Scanning (drop k line)
              = count_tokens (InsideNumber false) (drop i line)))
    with (fuel := String.length line) (s := (i, false, c));
    try assumption.
  - intros [[k h] c'] [Hc HI] Hcond. split; [assumption|].
    rewrite <- HI. symmetry. apply count_tokens_number_end.
    unfold number_cond in Hcond.
    destruct (Nat.lt_ge_cases k (String.length line)) as [Hk|Hk].
    + rewrite drop_char by assumption.
      apply andb_false_iff in Hcond as [Hcond|Hcond]; [|assumption].
      apply Nat.ltb_ge in Hcond. lia.
    + rewrite drop_end by assumption. exact Logic.I.
  - intros [[k h] c'] fl [Hc HI] Hcond Hb.
    unfold number_cond in Hcond.
    apply andb_true_iff in Hcond as [Hk Hch]. apply Nat.ltb_lt in Hk.
    unfold number_body in Hb.
    rewrite (drop_char line k) in HI by assumption.
    destruct (Ascii.eqb (char_at line k) ".") eqn:Hpt.
    + destruct h; injection Hb as <-; (split; [assumption|]);
        rewrite <- HI; rewrite ?(drop_char line k) by assumption;
        simpl; rewrite Hpt; reflexivity.
    + rewrite orb_false_r in Hch. injection Hb as <-. split; [assumption|].
      rewrite <- HI. simpl. rewrite Hpt, Hch. reflexivity.
  - split; reflexivity.
Qed.

(** One iteration of the scanner, run on a counter of the entries, counts
    what the machine counts over the characters the iteration consumes. *)
Lemma tokenize_body_counts line_num i (c : nat) :
  i < String.length line ->
  match tokenize_body (fun _ _ _ k => S k) (fun _ k => k) line line_num (i, c)
  with
  | Some (Next (j, c')) =>
      i < j <= String.length line /\
      c' + count_tokens Scanning (drop j line)
      = c + count_tokens Scanning (drop i line)
  | Some (Stop (_, c')) => c' = c + count_tokens Scanning (drop i line)
  | None => False
  end.
Proof.
  intros Hlt.
  rewrite (drop_char line i) by assumption.
  rewrite count_tokens_scanning.
  unfold tokenize_body, scanning_step.
  destruct (isspace (char_at line i)).
  { split; [lia|reflexivity]. }
  destruct (isalpha (char_at line i) || Ascii.eqb (char_at line i) "_")
    eqn:Hstart.
  { destruct (identifier_loop_spec line i) as [j [Hj [Hle [Hall Hend]]]].
    rewrite Hj.
    assert (Hij : i < j <= String.length line).
    { destruct (Nat.eq_dec i j) as [<-|Hne].
      - rewrite (ident_start_ident_char _ Hstart) in Hend.
        apply andb_false_iff in Hend as [Hend|Hend]; [|discriminate].
        apply Nat.ltb_ge in Hend. lia.
      - destruct (Hall (j - 1)); lia. }
    assert (Hrun : count_tokens InsideIdentifier (drop (i + 1) line)
                   = count_tokens Scanning (drop j line)).
    { apply (identifier_run (j - (i + 1))); try lia; try assumption.
      intros k Hk. apply Hall. lia. }
    destruct (str_in _ _); (split; [exact Hij|]); rewrite Hrun; lia. }
  destruct (isdigit (char_at line i)) eqn:Hdig.
  { destruct (number_loop_advances (fun _ k => k) line line_num i c Hlt Hdig)
      as [j [h [c' [Hj Hij]]]].
    rewrite Hj.
    pose proof (number_loop_counts line_num i c _ Hj) as [-> Hrun].
    rewrite (drop_char line i) in Hrun by assumption.
    destruct (isdigit_class _ Hdig) as [_ [_ Hpt]].
    simpl in Hrun. rewrite Hpt, Hdig in Hrun.
    destruct h; (split; [exact Hij|]); rewrite Hrun; lia. }
  destruct (Ascii.eqb (char_at line i) DQUOTE).
  { destruct (string_loop_spec line (i + 1)) as [j [Hj [Hle [Hall Hend]]]].
    rewrite Hj.
    rewrite (string_run (j - (i + 1)) (i + 1) j) by (lia || assumption).
    destruct (String.length line <=? j)%nat eqn:Hn.
    - apply Nat.leb_le in Hn. rewrite state_at_end by assumption. lia.
    - apply Nat.leb_gt in Hn.
      apply andb_false_iff in Hend as [Hend|Hend];
        [apply Nat.ltb_ge in Hend; lia|].
      apply negb_false_iff in Hend.
      rewrite (drop_char line j) by assumption.
      simpl. rewrite Hend. split; lia. }
  destruct (i + 1 <? String.length line)%nat eqn:Hn1.
  - apply Nat.ltb_lt in Hn1.
    rewrite (drop_char line (i + 1)) by assumption.
    cbn [andb].
    destruct (Ascii.eqb (char_at line i) "/"
              && Ascii.eqb (char_at line (i + 1)) "/").
    { rewrite <- (drop_char line (i + 1)) by assumption.
      rewrite count_tokens_comment
        by (apply string_forall_drop; exact line_no_eol).
      lia. }
    destruct (char_in (char_at line i) operators).
    + destruct (str_in _ two_char_operators).
      * split; [lia|]. simpl.
        replace (i + 1 + 1) with (i + 2) by lia. lia.
      * rewrite <- (drop_char line (i + 1)) by assumption. split; lia.
    + rewrite <- (drop_char line (i + 1)) by assumption. split; lia.
  - apply Nat.ltb_ge in Hn1. cbn [andb].
    rewrite (drop_end line (i + 1)) by assumption.
    destruct (char_in (char_at line i) operators); simpl;
      rewrite state_at_end by lia; split; lia.
Qed.

(** The scan of the line from a cursor, run on a counter of the entries,
    adds to the counter what the machine counts from there. *)
Lemma tokenize_from_counts line_num : forall m i (c : nat),
  String.length line - i <= m ->
  tokenize_from (fun _ _ _ k => S k) (fun _ k => k) line line_num i c
  = Some (c + count_tokens Scanning (drop i line)).
Proof.
  induction m as [|m IH]; intros i c Hm.
  - rewrite tokenize_from_end by lia. rewrite state_at_end by lia.
    f_equal. lia.
  - destruct (Nat.lt_ge_cases i (String.length line)) as [Hlt|Hge].
    + pose proof (tokenize_body_counts line_num i c Hlt) as Hb.
      destruct (tokenize_body _ _ line line_num (i, c))
        as [[[j c']|[j c']]|] eqn:Hbody; [| |contradiction].
      * destruct Hb as [Hij Hcount].
        rewrite (tokenize_from_next _ _ _ _ _ _ _ _ Hlt Hbody).
        rewrite IH by lia. f_equal. exact Hcount.
      * rewrite (tokenize_from_stop _ _ _ _ _ _ _ _ Hlt Hbody).
        f_equal. exact Hb.
    + rewrite tokenize_from_end by lia. rewrite state_at_end by lia.
      f_equal. lia.
Qed.

Lemma tokenize_line_counts line_num (c : nat) :
  tokenize_line (fun _ _ _ k => S k) (fun _ k => k) line line_num c
  = Some (c + count_tokens Scanning line).
Proof.
  unfold tokenize_line.
  rewrite (tokenize_from_counts line_num (String.length line)) by lia.
  reflexivity.
Qed.

End MachineOnLine.

(** No two-character operator ends at the end of a line. *)
Lemma two_char_operator_no_eol c :
  str_in (String c (String LF "")) two_char_operators = false.
Proof. ascii_cases c. Qed.

(** The machine on a line followed by more text: what it counts on the line
    alone, then what it counts on the rest from between two lexemes. *)
Lemma count_tokens_line (l rest : string) :
  string_forall (fun c => negb (Ascii.eqb c LF)) l = true ->
  forall q,
    count_tokens q (l ++ String LF rest)
    = count_tokens q l + count_tokens Scanning rest.
Proof.
  induction l as [|c l IH]; intros Hl q.
  - destruct q as [| |h| | |]; reflexivity.
  - simpl in Hl. apply andb_true_iff in Hl as [Hc Hl].
    apply negb_true_iff in Hc. specialize (IH Hl).
    assert (Hstep :
      scanning_step (fun q' => count_tokens q' (l ++ String LF rest)) c
        (l ++ String LF rest)
      = scanning_step (fun q' => count_tokens q' l) c l
        + count_tokens Scanning rest).
    { unfold scanning_step. rewrite !IH.
      destruct (isspace c); [reflexivity|].
      destruct (isalpha c || Ascii.eqb c "_"); [reflexivity|].
      destruct (isdigit c); [reflexivity|].
      destruct (Ascii.eqb c DQUOTE); [reflexivity|].
      destruct l as [|d l'].
      - change ("" ++ String LF rest) with (String LF rest). cbv beta iota.
        rewrite two_char_operator_no_eol.
        replace (Ascii.eqb c "/" && Ascii.eqb LF "/") with false
          by (destruct (Ascii.eqb c "/"); reflexivity).
        destruct (char_in c operators); reflexivity.
      - change (String d l' ++ String LF rest)
          with (String d (l' ++ String LF rest)). cbv beta iota.
        destruct (Ascii.eqb c "/" && Ascii.eqb d "/"); [reflexivity|].
        destruct (char_in c operators); [|reflexivity].
        destruct (str_in _ two_char_operators); reflexivity. }
    change (String c l ++ String LF rest)
      with (String c (l ++ String LF rest)).
    destruct q as [| |h| | |]; cbn [count_tokens]; rewrite ?Hstep, ?IH.
    + reflexivity.
    + destruct (isalnum c || Ascii.eqb c "_"); reflexivity.
    + destruct (Ascii.eqb c "."); [destruct h; reflexivity|].
      destruct (isdigit c); reflexivity.
    + rewrite Hc. destruct (Ascii.eqb c DQUOTE); reflexivity.
    + rewrite Hc. reflexivity.
    + reflexivity.
Qed.

(** The lines of a text hold no end of line, and the text is its lines with
    an end of line between each two. *)
Lemma split_lines (code : string) :
  Forall (fun l => string_forall (fun c => negb (Ascii.eqb c LF)) l = true)
    (split LF code) /\
  String.concat (String LF "") (split LF code) = code.
Proof.
  induction code as [|c s [IHf IHc]]; simpl.
  - split; [repeat constructor|reflexivity].
  - destruct (Ascii.eqb c LF) eqn:Ec.
    + apply Ascii.eqb_eq in Ec. subst c. split.
      * constructor; [reflexivity|assumption].
      * destruct (split LF s) as [|h t] eqn:Es.
        -- simpl in IHc. subst s. discriminate Es.
        -- change (String.concat (String LF "") ("" :: h :: t))
             with (String LF (String.concat (String LF "") (h :: t))).
           rewrite IHc. reflexivity.
    + destruct (split LF s) as [|h t] eqn:Es.
      * simpl in IHc. subst s. discriminate Es.
      * pose proof (Forall_inv IHf) as Hh.
        pose proof (Forall_inv_tail IHf) as Ht. simpl in Hh. split.
        -- constructor; [simpl; rewrite Ec, Hh; reflexivity|assumption].
        -- destruct t as [|h2 t'].
           ++ simpl in *. rewrite IHc. reflexivity.
           ++ change (String.concat (String LF "") (String c h :: h2 :: t'))
                with (String c (String.concat (String LF "") (h :: h2 :: t'))).
              rewrite IHc. reflexivity.
Qed.

(** The scan of the lines of a text, run on a counter of the entries, adds
    what the machine counts on the text. *)
Lemma tokenize_lines_counts (lines : list string) : forall n (c : nat),
  Forall (fun l => string_forall (fun c => negb (Ascii.eqb c LF)) l = true)
    lines ->
  tokenize_lines (fun _ _ _ k => S k) (fun _ k => k) (enumerate lines n) c
  = Some (c + count_tokens Scanning (String.concat (String LF "") lines)).
Proof.
  induction lines as [|l rest IH]; intros n c H.
  - simpl. f_equal. lia.
  - inversion H as [|x r Hl Hrest]; subst.
    cbn [enumerate tokenize_lines].
    rewrite tokenize_line_counts by assumption.
    rewrite IH by assumption.
    destruct rest as [|l2 rest'].
    + simpl. f_equal. lia.
    + cbn [String.concat].
      change (l ++ String LF "" ++ ?x) with (l ++ String LF x).
      rewrite count_tokens_line by assumption. f_equal. lia.
Qed.

(** The scanner recognizes the tokens the machine counts. *)
Lemma tokens_recognized_count (code : string) :
  tokens_recognized code = Some (token_count code).
Proof.
  unfold tokens_recognized, token_count.
  destruct (split_lines code) as [Hf Hc].
  rewrite tokenize_lines_counts by assumption.
  rewrite Hc. reflexivity.
Qed.

(** * The claims *)

(** C1 as the code has it.  An opening quote with no closing quote on its
    line makes [tokenize_line] record the unterminated-string error of that
    line and stop scanning that line: one error for that quote, no entry for
    the text after it on the line.  Only the line is abandoned: the lines
    after it are scanned as usual, from the analyzer that the scan of the
    line up to the quote has left, with that error appended. *)
Theorem unterminated_string_stops_line :
  (forall (line : string) (line_num : Z) (i : nat) (st : state),
      i < String.length line ->
      char_at line i = DQUOTE ->
      (forall k, i < k < String.length line -> char_at line k <> DQUOTE) ->
      exists st',
        tokenize_from add_symbol errors_append line line_num i st = Some st' /\
        entries st' = entries st /\
        error_list st' = (error_list st ++ [error_unterminated line_num])%list)
  /\
  (forall (line : string) (line_num : Z) (rest : list (Z * string))
          (st0 : state) (i : nat) (st : state),
      reaches add_symbol errors_append line line_num (0, st0) (i, st) ->
      i < String.length line ->
      char_at line i = DQUOTE ->
      (forall k, i < k < String.length line -> char_at line k <> DQUOTE) ->
      tokenize_lines add_symbol errors_append ((line_num, line) :: rest) st0 =
      tokenize_lines add_symbol errors_append rest
        (errors_append (error_unterminated line_num) st))
  /\
  (forall line_num,
      error_unterminated line_num =
      "Error léxico en línea " ++ str_of_int line_num ++ ": String no cerrado")
  /\
  (forall st : state,
      exists st',
        analyze (String DQUOTE "unterminated") st = Some st' /\
        entries st' = [] /\
        error_list st' = [error_unterminated 1]).
Proof.
  split; [|split; [|split]].
  - intros line line_num i st Hlt Hq Hnone.
    destruct (tokenize_body_unterminated line line_num i st Hlt Hq Hnone)
      as [j Hb].
    exists (errors_append (error_unterminated line_num) st).
    split; [|split].
    + apply (tokenize_from_stop _ _ _ _ _ _ _ _ Hlt Hb).
    + apply entries_errors_append.
    + apply error_list_errors_append.
  - intros line line_num rest st0 i st Hreach Hlt Hq Hnone.
    destruct (tokenize_body_unterminated line line_num i st Hlt Hq Hnone)
      as [j Hb].
    pose proof (tokenize_from_reaches _ _ _ _ _ _ Hreach) as E.
    simpl in E. simpl. unfold tokenize_line. rewrite E.
    rewrite (tokenize_from_stop _ _ _ _ _ _ _ _ Hlt Hb). reflexivity.
  - reflexivity.
  - intros st. apply analyze_log_from_fresh. vm_compute. reflexivity.
Qed.

(** The hypotheses of C1 hold at the quote of the line [x = ] followed by
    an opening quote and [abc], both for the scan of the line from the quote
    and for the scan of the lines after it. *)
Lemma unterminated_string_stops_line_witness :
  (exists st',
      tokenize_from add_symbol errors_append
        ("x = " ++ String DQUOTE "abc") 7 4 fresh = Some st' /\
      entries st' = entries fresh /\
      error_list st' = (error_list fresh ++ [error_unterminated 7])%list) /\
  tokenize_lines add_symbol errors_append
    [(7%Z, "x = " ++ String DQUOTE "abc"); (8%Z, "y")] fresh =
  tokenize_lines add_symbol errors_append [(8%Z, "y")]
    (errors_append (error_unterminated 7)
       (add_symbol "OPERADOR" "=" 7
          (add_symbol "IDENTIFICADOR" "x" 7 fresh))).
Proof.
  assert (Hnone : forall k,
             4 < k < String.length ("x = " ++ String DQUOTE "abc") ->
             char_at ("x = " ++ String DQUOTE "abc") k <> DQUOTE).
  { intros k Hk. simpl in Hk.
    assert (Hcases : k = 5 \/ k = 6 \/ k = 7) by lia.
    destruct Hcases as [-> | [-> | ->]]; vm_compute; discriminate. }
  split.
  - apply (proj1 unterminated_string_stops_line
             ("x = " ++ String DQUOTE "abc") 7%Z 4 fresh);
      [simpl; lia|reflexivity|exact Hnone].
  - apply (proj1 (proj2 unterminated_string_stops_line)
             ("x = " ++ String DQUOTE "abc") 7%Z [(8%Z, "y")] fresh 4);
      [|simpl; lia|reflexivity|exact Hnone].
    apply (reaches_next _ _ _ _ 0 fresh 1
             (add_symbol "IDENTIFICADOR" "x" 7 fresh));
      [simpl; lia|reflexivity|].
    apply (reaches_next _ _ _ _ 1 _ 2
             (add_symbol "IDENTIFICADOR" "x" 7 fresh));
      [simpl; lia|reflexivity|].
    apply (reaches_next _ _ _ _ 2 _ 3
             (add_symbol "OPERADOR" "=" 7
                (add_symbol "IDENTIFICADOR" "x" 7 fresh)));
      [simpl; lia|reflexivity|].
    apply (reaches_next _ _ _ _ 3 _ 4
             (add_symbol "OPERADOR" "=" 7
                (add_symbol "IDENTIFICADOR" "x" 7 fresh)));
      [simpl; lia|reflexivity|].
    apply reaches_here.
Defined.

(** C1 as the spec has it fails: after an unterminated string on line 1,
    the text of line 2 is scanned and its tokens are recorded. *)
Lemma unterminated_string_next_line_scanned :
  exists st',
    analyze (String DQUOTE "abc" ++ String LF "y = 1") fresh = Some st' /\
    entries st' =
      [mkSymbol "IDENTIFICADOR" "y" 2; mkSymbol "OPERADOR" "=" 2;
       mkSymbol "NUMERO_ENTERO" "1" 2] /\
    error_list st' = [error_unterminated 1].
Proof.
  apply analyze_log_from_fresh. vm_compute. reflexivity.
Qed.

(** C2 fails on the code: [save] writes three header lines and [load] skips
    eight lines, so the first five rows are never read back.  A table with
    one entry loads as the empty table; of six entries only the sixth comes
    back. *)
Theorem save_then_load_loses_entries :
  (let table :=
     SymbolTable.mk "tabla_simbolos.dat" [mkSymbol "IDENTIFICADOR" "x" 1] in
   let fs := SymbolTable.save table empty_fs in
   fst (SymbolTable.__init__ "tabla_simbolos.dat" fs)
   = Ok (SymbolTable.mk "tabla_simbolos.dat" [])) /\
  (let table :=
     SymbolTable.mk "tabla_simbolos.dat"
       [mkSymbol "IDENTIFICADOR" "x" 1; mkSymbol "OPERADOR" "=" 1;
        mkSymbol "NUMERO_ENTERO" "1" 1; mkSymbol "OPERADOR" ";" 1;
        mkSymbol "IDENTIFICADOR" "y" 2; mkSymbol "OPERADOR" "=" 2] in
   let fs := SymbolTable.save table empty_fs in
   fst (SymbolTable.__init__ "tabla_simbolos.dat" fs)
   = Ok (SymbolTable.mk "tabla_simbolos.dat" [mkSymbol "OPERADOR" "=" 2])).
Proof.
  split; vm_compute; reflexivity.
Qed.

(** C3 as the code has it.  In a number that starts at a digit, with a
    first point at [d1] and a second point at [d2], the iteration records
    the multiple-decimal-points error of the line, stops consuming at the
    second point, and appends the run before that point as a NUMERO_DECIMAL
    entry.  The scan resumes on the second point itself, which the next
    iteration reports as an unrecognized character.  On [3.1.4] the entries
    are NUMERO_DECIMAL 3.1 and NUMERO_ENTERO 4, and the errors are the
    multiple-decimal-points error and the unrecognized point, both of
    line 1. *)
Theorem second_decimal_point :
  (forall (line : string) (line_num : Z) (i d1 d2 : nat) (st : state),
      i < d1 -> d1 < d2 -> d2 < String.length line ->
      (forall k, i <= k < d2 -> k <> d1 -> isdigit (char_at line k) = true) ->
      char_at line d1 = "."%char ->
      char_at line d2 = "."%char ->
      exists st1 st2,
        tokenize_body add_symbol errors_append line line_num (i, st)
          = Some (Next (d2, st1)) /\
        entries st1 =
          (entries st ++
           [mkSymbol "NUMERO_DECIMAL" (slice line i d2) line_num])%list /\
        error_list st1 =
          (error_list st ++ [error_multiple_points line_num])%list /\
        tokenize_body add_symbol errors_append line line_num (d2, st1)
          = Some (Next (d2 + 1, st2)) /\
        entries st2 = entries st1 /\
        error_list st2 =
          (error_list st1 ++ [error_unrecognized line_num "."])%list)
  /\
  (forall line_num,
      error_multiple_points line_num =
      "Error léxico en línea " ++ str_of_int line_num ++
      ": Número con múltiples puntos decimales")
  /\
  (forall st : state,
      exists st',
        analyze "3.1.4" st = Some st' /\
        entries st' =
          [mkSymbol "NUMERO_DECIMAL" "3.1" 1;
           mkSymbol "NUMERO_ENTERO" "4" 1] /\
        error_list st' =
          [error_multiple_points 1; error_unrecognized 1 "."]).
Proof.
  split; [|split].
  - intros line line_num i d1 d2 st H1 H2 H3 Hdigits Hd1 Hd2.
    assert (Hdig : isdigit (char_at line i) = true)
      by (apply Hdigits; lia).
    destruct (isdigit_class _ Hdig) as [Hsp [Hid _]].
    pose proof (number_loop_second_point errors_append line line_num
                  i d1 d2 st (Nat.lt_le_incl _ _ H1) H2 H3 Hdigits Hd1 Hd2)
      as Hloop.
    set (st1 := add_symbol "NUMERO_DECIMAL" (slice line i d2) line_num
                  (errors_append (error_multiple_points line_num) st)).
    exists st1, (errors_append (error_unrecognized line_num ".") st1).
    split; [|split; [|split; [|split; [|split]]]].
    + unfold tokenize_body. rewrite Hsp, Hid, Hdig, Hloop. reflexivity.
    + unfold st1. rewrite entries_add_symbol, entries_errors_append.
      reflexivity.
    + unfold st1. rewrite error_list_add_symbol, error_list_errors_append.
      reflexivity.
    + pose proof (eqb_char_at _ _ _ Hd2) as Hpt.
      destruct (point_class _ Hpt) as [Hsp2 [Hid2 [Hdig2 [Hq2 [Hsl Hop]]]]].
      unfold tokenize_body.
      rewrite Hsp2, Hid2, Hdig2, Hq2, Hsl, Hop, andb_false_r, Hd2.
      reflexivity.
    + apply entries_errors_append.
    + apply error_list_errors_append.
  - reflexivity.
  - intros st. apply analyze_log_from_fresh. vm_compute. reflexivity.
Qed.

(** The hypotheses of C3 hold on [3.1.4], from the cursor 0, with the
    points at 1 and 3. *)
Lemma second_decimal_point_witness :
  exists st1 st2,
    tokenize_body add_symbol errors_append "3.1.4" 1 (0, fresh)
      = Some (Next (3, st1)) /\
    entries st1 =
      (entries fresh ++
       [mkSymbol "NUMERO_DECIMAL" (slice "3.1.4" 0 3) 1])%list /\
    error_list st1 = (error_list fresh ++ [error_multiple_points 1])%list /\
    tokenize_body add_symbol errors_append "3.1.4" 1 (3, st1)
      = Some (Next (3 + 1, st2)) /\
    entries st2 = entries st1 /\
    error_list st2 = (error_list st1 ++ [error_unrecognized 1 "."])%list.
Proof.
  apply (proj1 second_decimal_point "3.1.4" 1%Z 0 1 3 fresh);
    [lia|lia|simpl; lia| |reflexivity|reflexivity].
  intros k Hk Hne.
  assert (Hcases : k = 0 \/ k = 2) by lia.
  destruct Hcases as [-> | ->]; reflexivity.
Defined.

(** C3 as the spec has it fails: on [3.1.4] the run before the second
    point is recorded as an entry, and two errors are recorded. *)
Lemma second_decimal_point_run_emitted :
  exists st',
    analyze "3.1.4" fresh = Some st' /\
    entries st' =
      [mkSymbol "NUMERO_DECIMAL" "3.1" 1; mkSymbol "NUMERO_ENTERO" "4" 1] /\
    error_list st' =
      ["Error léxico en línea 1: Número con múltiples puntos decimales";
       "Error léxico en línea 1: Carácter no reconocido '.'"].
Proof.
  apply analyze_log_from_fresh. vm_compute. reflexivity.
Qed.

(** C4. [analyze] is deterministic: run on the same text from any two
    analyzers (fresh or not), it returns, and leaves identical entry
    sequences and identical error lists.  The number of entries is the number
    of tokens of the text: the number of its calls of [add_symbol], and also
    the number [token_count] finds in the text on its own, by one pass of a
    state machine over the characters that counts identifiers and reserved
    words, numbers, closed strings and operators, and counts nothing for
    whitespace, comments, unterminated strings and unrecognized
    characters. *)
Theorem analyze_deterministic (code : string) (st1 st2 : state) :
  exists r1 r2 k,
    analyze code st1 = Some r1 /\ analyze code st2 = Some r2 /\
    entries r1 = entries r2 /\ error_list r1 = error_list r2 /\
    tokens_recognized code = Some k /\ length (entries r1) = k /\
    length (entries r1) = token_count code.
Proof.
  pose proof (analyze_same_log code st1 st2) as Hsame.
  pose proof (analyze_counts code st1) as Hcount.
  destruct (analyze_total code st1) as [r1 H1].
  destruct (analyze_total code st2) as [r2 H2].
  rewrite H1, H2 in Hsame. rewrite H1 in Hcount.
  rewrite tokens_recognized_count in Hcount.
  unfold option_rel in Hsame, Hcount.
  destruct Hsame as [He Hr].
  exists r1, r2, (token_count code).
  repeat split; try assumption. apply tokens_recognized_count.
Qed.

(** C5. At a cursor on an alphabetic character or an underscore, the
    iteration consumes the maximal run of alphanumeric-or-underscore
    characters that starts there, and appends one entry whose text is the
    run: PALABRA_RESERVADA when the text is a member of [KEYWORDS],
    IDENTIFICADOR otherwise; the membership test is equality of strings with
    a member of the fixed list, so it is exact and sensitive to case.
    Alphabetic and alphanumeric are what [str.isalpha] and [str.isalnum]
    say, so a letter above U+007F belongs to the run: the three characters
    a, n with tilde, o are one IDENTIFICADOR. *)
Theorem identifier_or_keyword :
  (forall (line : string) (line_num : Z) (i : nat) (st : state),
      i < String.length line ->
      isalpha (char_at line i) || Ascii.eqb (char_at line i) "_" = true ->
      exists j st',
        tokenize_body add_symbol errors_append line line_num (i, st)
          = Some (Next (j, st')) /\
        i < j <= String.length line /\
        (forall k, i <= k < j -> ident_char (char_at line k) = true) /\
        (j < String.length line -> ident_char (char_at line j) = false) /\
        entries st' =
          (entries st ++
           [mkSymbol
              (if str_in (slice line i j) CustomLanguage.KEYWORDS
               then "PALABRA_RESERVADA" else "IDENTIFICADOR")
              (slice line i j) line_num])%list /\
        error_list st' = error_list st /\
        (str_in (slice line i j) CustomLanguage.KEYWORDS = true <->
         In (slice line i j) CustomLanguage.KEYWORDS)) /\
  (forall st : state,
      exists st',
        analyze (String "a" (String N_TILDE "o")) st = Some st' /\
        entries st' =
          [mkSymbol "IDENTIFICADOR" (String "a" (String N_TILDE "o")) 1] /\
        error_list st' = []).
Proof.
  split.
  - intros line line_num i st Hlt Hstart.
    destruct (identifier_loop_spec line i) as [j [Hj [Hle [Hall Hend]]]].
    assert (Hij : i < j <= String.length line).
    { destruct (Nat.eq_dec i j) as [<-|Hne].
      - rewrite (ident_start_ident_char _ Hstart) in Hend.
        apply andb_false_iff in Hend as [Hend|Hend]; [|discriminate].
        apply Nat.ltb_ge in Hend. lia.
      - destruct (Hall (j - 1)); lia. }
    exists j.
    exists (add_symbol
              (if str_in (slice line i j) CustomLanguage.KEYWORDS
               then "PALABRA_RESERVADA" else "IDENTIFICADOR")
              (slice line i j) line_num st).
    split; [|split; [|split; [|split; [|split; [|split]]]]].
    + unfold tokenize_body.
      rewrite (ident_start_not_space _ Hstart), Hstart, Hj.
      destruct (str_in (slice line i j) CustomLanguage.KEYWORDS); reflexivity.
    + exact Hij.
    + intros k Hk. apply Hall. assumption.
    + intros Hjn. apply andb_false_iff in Hend as [Hend|Hend]; [|assumption].
      apply Nat.ltb_ge in Hend. lia.
    + apply entries_add_symbol.
    + apply error_list_add_symbol.
    + apply str_in_In.
  - intros st. apply analyze_log_from_fresh. vm_compute. reflexivity.
Qed.

(** The hypotheses of C5 hold at the start of the line [If x]: the
    iteration consumes [If] and, [If] not being the keyword [if], appends an
    IDENTIFICADOR. *)
Lemma identifier_or_keyword_witness :
  exists j st',
    tokenize_body add_symbol errors_append "If x" 1 (0, fresh)
      = Some (Next (j, st')) /\
    0 < j <= String.length "If x" /\
    (forall k, 0 <= k < j -> ident_char (char_at "If x" k) = true) /\
    (j < String.length "If x" -> ident_char (char_at "If x" j) = false) /\
    entries st' =
      (entries fresh ++
       [mkSymbol
          (if str_in (slice "If x" 0 j) CustomLanguage.KEYWORDS
           then "PALABRA_RESERVADA" else "IDENTIFICADOR")
          (slice "If x" 0 j) 1])%list /\
    error_list st' = error_list fresh /\
    (str_in (slice "If x" 0 j) CustomLanguage.KEYWORDS = true <->
     In (slice "If x" 0 j) CustomLanguage.KEYWORDS).
Proof.
  apply (proj1 identifier_or_keyword "If x" 1%Z 0 fresh);
    [simpl; lia|reflexivity].
Defined.

(** C6. At an operator character that does not open a comment, the
    iteration first tries the two characters at the cursor against
    [==], [!=], [<=], [>=], [&&], [||]: when the next character completes
    one of them, that operator is appended and the cursor moves by two;
    otherwise the single character is appended and the cursor moves by one.
    On [a <= b && c] the operators recorded are [<=] and [&&]. *)
Theorem operator_two_char_first :
  (forall (line : string) (line_num : Z) (i : nat) (st : state),
      i < String.length line ->
      char_in (char_at line i) operators = true ->
      comment_start line i = false ->
      let char := char_at line i in
      let two_char_op := String char (String (char_at line (i + 1)) "") in
      let two :=
        (i + 1 <? String.length line)%nat
        && str_in two_char_op two_char_operators in
      exists st',
        tokenize_body add_symbol errors_append line line_num (i, st)
          = Some (Next (if two then i + 2 else i + 1, st')) /\
        entries st' =
          (entries st ++
           [mkSymbol "OPERADOR"
              (if two then two_char_op else String char "") line_num])%list /\
        error_list st' = error_list st) /\
  (forall x, str_in x two_char_operators = true <->
             In x ["=="; "!="; "<="; ">="; "&&"; "||"]) /\
  (forall st : state,
      exists st',
        analyze "a <= b && c" st = Some st' /\
        entries st' =
          [mkSymbol "IDENTIFICADOR" "a" 1; mkSymbol "OPERADOR" "<=" 1;
           mkSymbol "IDENTIFICADOR" "b" 1; mkSymbol "OPERADOR" "&&" 1;
           mkSymbol "IDENTIFICADOR" "c" 1] /\
        error_list st' = []).
Proof.
  split; [|split].
  - intros line line_num i st Hlt Hop Hcomment char two_char_op two.
    destruct (operator_class _ Hop) as [Hsp [Hid [Hdig Hq]]].
    exists (add_symbol "OPERADOR"
              (if two then two_char_op else String char "") line_num st).
    split; [|split].
    + unfold tokenize_body. unfold comment_start in Hcomment.
      rewrite Hsp, Hid, Hdig, Hq, Hcomment, Hop.
      subst two two_char_op char.
      destruct (i + 1 <? String.length line)%nat; cbn [andb]; [|reflexivity].
      destruct (str_in
                  (String (char_at line i) (String (char_at line (i + 1)) ""))
                  two_char_operators); reflexivity.
    + apply entries_add_symbol.
    + apply error_list_add_symbol.
  - intros x. apply str_in_In.
  - intros st. apply analyze_log_from_fresh. vm_compute. reflexivity.
Qed.

(** The hypotheses of C6 hold at the [<] of [a <= b && c]: the iteration
    appends [<=] and moves the cursor from 2 to 4. *)
Lemma operator_two_char_first_witness :
  exists st',
    tokenize_body add_symbol errors_append "a <= b && c" 1 (2, fresh)
      = Some (Next (4, st')) /\
    entries st' = [mkSymbol "OPERADOR" "<=" 1] /\
    error_list st' = [].
Proof.
  apply (proj1 operator_two_char_first "a <= b && c" 1%Z 2 fresh);
    [simpl; lia|reflexivity|reflexivity].
Defined.

(** C7. On the text [x = 3.5;], [analyze] leaves exactly the entries
    IDENTIFICADOR x, OPERADOR =, NUMERO_DECIMAL 3.5, OPERADOR ; in this
    order, each with line 1, and no error. *)
Theorem analyze_assignment (st : state) :
  exists st',
    analyze "x = 3.5;" st = Some st' /\
    entries st' =
      [mkSymbol "IDENTIFICADOR" "x" 1; mkSymbol "OPERADOR" "=" 1;
       mkSymbol "NUMERO_DECIMAL" "3.5" 1; mkSymbol "OPERADOR" ";" 1] /\
    error_list st' = [].
Proof.
  apply analyze_log_from_fresh. vm_compute. reflexivity.
Qed.

(** C8. At a character that is not whitespace, does not start an
    identifier, is not a digit, not a double quote, does not open a comment
    and is not an operator character, the iteration appends the error that
    names the character and the line, appends no entry, moves the cursor by
    exactly one, and the loop goes on with the rest of the line.  An [@]
    that the scan of a line comes to is such a character: the scan of the
    line is the scan of what follows the [@], from the analyzer left by what
    precedes it with the one error appended.  A lone [@] gives exactly one
    error; among valid tokens it gives exactly one error and the tokens
    after it on the line are recorded.  The classes are those of
    [str.isspace], [str.isalpha] and [str.isdigit]: of the four characters
    x, no-break space, e with acute accent, inverted question mark, only the
    last is not recognized. *)
Theorem unrecognized_character :
  (forall (line : string) (line_num : Z) (i : nat) (st : state),
      i < String.length line ->
      let char := char_at line i in
      isspace char = false ->
      isalpha char || Ascii.eqb char "_" = false ->
      isdigit char = false ->
      Ascii.eqb char DQUOTE = false ->
      comment_start line i = false ->
      char_in char operators = false ->
      exists st',
        tokenize_body add_symbol errors_append line line_num (i, st)
          = Some (Next (i + 1, st')) /\
        entries st' = entries st /\
        error_list st' =
          (error_list st ++ [error_unrecognized line_num char])%list /\
        tokenize_from add_symbol errors_append line line_num i st =
        tokenize_from add_symbol errors_append line line_num (i + 1) st') /\
  (forall (line : string) (line_num : Z) (i : nat) (st0 st : state),
      reaches add_symbol errors_append line line_num (0, st0) (i, st) ->
      i < String.length line ->
      char_at line i = "@"%char ->
      tokenize_line add_symbol errors_append line line_num st0 =
      tokenize_from add_symbol errors_append line line_num (i + 1)
        (errors_append (error_unrecognized line_num "@") st)) /\
  (forall line_num char,
      error_unrecognized line_num char =
      "Error léxico en línea " ++ str_of_int line_num ++
      ": Carácter no reconocido '" ++ String char "'") /\
  (forall st : state,
      exists st',
        analyze "@" st = Some st' /\
        entries st' = [] /\
        error_list st' = [error_unrecognized 1 "@"]) /\
  (forall st : state,
      exists st',
        analyze "x = @ 3;" st = Some st' /\
        entries st' =
          [mkSymbol "IDENTIFICADOR" "x" 1; mkSymbol "OPERADOR" "=" 1;
           mkSymbol "NUMERO_ENTERO" "3" 1; mkSymbol "OPERADOR" ";" 1] /\
        error_list st' = [error_unrecognized 1 "@"]) /\
  (forall st : state,
      exists st',
        analyze
          (String "x" (String NBSP (String E_ACUTE
             (String INVERTED_QUESTION "")))) st = Some st' /\
        entries st' =
          [mkSymbol "IDENTIFICADOR" "x" 1;
           mkSymbol "IDENTIFICADOR" (String E_ACUTE "") 1] /\
        error_list st' = [error_unrecognized 1 INVERTED_QUESTION]).
Proof.
  assert (Hstep : forall line line_num i (st : state),
             i < String.length line ->
             isspace (char_at line i) = false ->
             isalpha (char_at line i) || Ascii.eqb (char_at line i) "_"
               = false ->
             isdigit (char_at line i) = false ->
             Ascii.eqb (char_at line i) DQUOTE = false ->
             comment_start line i = false ->
             char_in (char_at line i) operators = false ->
             tokenize_body add_symbol errors_append line line_num (i, st)
             = Some (Next (i + 1,
                 errors_append
                   (error_unrecognized line_num (char_at line i)) st))).
  { intros line line_num i st Hlt Hsp Hid Hdig Hq Hcomment Hop.
    unfold tokenize_body. unfold comment_start in Hcomment.
    rewrite Hsp, Hid, Hdig, Hq, Hcomment, Hop. reflexivity. }
  split; [|split; [|split; [|split; [|split]]]].
  - intros line line_num i st Hlt char Hsp Hid Hdig Hq Hcomment Hop.
    subst char.
    pose proof (Hstep line line_num i st Hlt Hsp Hid Hdig Hq Hcomment Hop)
      as Hb.
    exists (errors_append (error_unrecognized line_num (char_at line i)) st).
    split; [exact Hb|split; [|split]].
    + apply entries_errors_append.
    + apply error_list_errors_append.
    + apply (tokenize_from_next _ _ _ _ _ _ _ _ Hlt Hb).
  - intros line line_num i st0 st Hreach Hlt Hat.
    pose proof (tokenize_from_reaches _ _ _ _ _ _ Hreach) as E.
    simpl in E. unfold tokenize_line. rewrite E.
    apply tokenize_from_next; [assumption|].
    rewrite <- Hat. apply Hstep; try assumption; try (rewrite Hat; reflexivity).
    apply not_operator_not_comment. rewrite Hat. reflexivity.
  - reflexivity.
  - intros st. apply analyze_log_from_fresh. vm_compute. reflexivity.
  - intros st. apply analyze_log_from_fresh. vm_compute. reflexivity.
  - intros st. apply analyze_log_from_fresh. vm_compute. reflexivity.
Qed.

(** The hypotheses of C8 hold at the [@] of [x = @ 3;]. *)
Lemma unrecognized_character_witness :
  exists st',
    tokenize_body add_symbol errors_append "x = @ 3;" 1 (4, fresh)
      = Some (Next (5, st')) /\
    entries st' = [] /\
    error_list st' = [error_unrecognized 1 "@"] /\
    tokenize_from add_symbol errors_append "x = @ 3;" 1 4 fresh =
    tokenize_from add_symbol errors_append "x = @ 3;" 1 5 st'.
Proof.
  apply (proj1 unrecognized_character "x = @ 3;" 1%Z 4 fresh);
    [simpl; lia|reflexivity..].
Defined.

(** C9. After [clear()], the table is empty, and a fresh [SymbolTable] over
    the same file loads no entry; the same holds when [save()] is called
    once more before the fresh table is built. *)
Theorem clear_then_load_is_empty (table : SymbolTable.t) (fs : FileSystem) :
  let cleared := SymbolTable.clear table fs in
  let saved := SymbolTable.save (fst cleared) (snd cleared) in
  SymbolTable.symbols (fst cleared) = [] /\
  SymbolTable.__init__ (SymbolTable.filename table) (snd cleared) =
    (Ok (SymbolTable.mk (SymbolTable.filename table) []), snd cleared) /\
  SymbolTable.__init__ (SymbolTable.filename table) saved =
    (Ok (SymbolTable.mk (SymbolTable.filename table) []), saved).
Proof.
  destruct table as [name syms]. simpl. split; [reflexivity|].
  unfold SymbolTable.__init__, SymbolTable._create_file, exists_,
    SymbolTable.load.
  simpl. rewrite !save_empty. simpl. rewrite !save_empty.
  split; reflexivity.
Qed.

(** C10. [analyze] terminates on every text: an iteration of the loop of
    [tokenize_line] either moves the cursor strictly to the right or breaks
    out of the loop, so the scan of a line ends within the bound of one
    iteration per character, and the pass over all the lines returns. *)
Theorem analyze_terminates :
  (forall line line_num i st,
      i < String.length line ->
      exists fl,
        tokenize_body add_symbol errors_append line line_num (i, st)
          = Some fl /\
        match fl with
        | Next (j, _) => i < j
        | Stop _ => True
        end) /\
  (forall line line_num st,
      exists st',
        tokenize_line add_symbol errors_append line line_num st = Some st') /\
  (forall code st, exists st', analyze code st = Some st').
Proof.
  split; [|split].
  - intros line line_num i st Hlt.
    destruct (tokenize_body_advances add_symbol errors_append
                line line_num i st Hlt) as [fl [Hb Hfl]].
    exists fl. split; [assumption|].
    destruct fl as [[j sj]|]; [lia|exact Logic.I].
  - intros line line_num st. apply tokenize_from_total.
  - apply analyze_total.
Qed.

(** The hypothesis of C10 holds at the start of the line [x = 1]. *)
Lemma analyze_terminates_witness :
  exists fl,
    tokenize_body add_symbol errors_append "x = 1" 1 (0, fresh) = Some fl /\
    match fl with
    | Next (j, _) => 0 < j
    | Stop _ => True
    end.
Proof.
  apply (proj1 analyze_terminates "x = 1" 1%Z 0 fresh). simpl. lia.
Defined.

(** * Further properties *)

(** ** The symbol table and its file *)

(** X1. After [save()], a fresh [SymbolTable] over the same file does not
    raise and holds the saved entries without the first five, in their
    order, equal in type, text and line, whenever the saved entries hold no
    tab, no end of line and a type that starts with no whitespace: [load]
    skips eight lines and [save] writes three header lines. *)
Theorem reload_drops_first_five
    (name : string) (symbols : list Symbol) (fs : FileSystem) :
  Forall storable symbols ->
  let saved := SymbolTable.save (SymbolTable.mk name symbols) fs in
  SymbolTable.__init__ name saved
  = (Ok (SymbolTable.mk name (skipn 5 symbols)), saved).
Proof.
  intros H. apply load_after_save. assumption.
Qed.

Lemma reload_drops_first_five_witness :
  let symbols :=
    [mkSymbol "IDENTIFICADOR" "x" 1; mkSymbol "OPERADOR" "=" 1;
     mkSymbol "NUMERO_ENTERO" "1" 1; mkSymbol "OPERADOR" ";" 1;
     mkSymbol "IDENTIFICADOR" "y" 2; mkSymbol "OPERADOR" "=" 2;
     mkSymbol "NUMERO_DECIMAL" "2.5" 2] in
  let saved := SymbolTable.save (SymbolTable.mk "t.dat" symbols) empty_fs in
  SymbolTable.__init__ "t.dat" saved
  = (Ok (SymbolTable.mk "t.dat"
           [mkSymbol "OPERADOR" "=" 2; mkSymbol "NUMERO_DECIMAL" "2.5" 2]),
     saved).
Proof.
  apply (reload_drops_first_five "t.dat"
           [mkSymbol "IDENTIFICADOR" "x" 1; mkSymbol "OPERADOR" "=" 1;
            mkSymbol "NUMERO_ENTERO" "1" 1; mkSymbol "OPERADOR" ";" 1;
            mkSymbol "IDENTIFICADOR" "y" 2; mkSymbol "OPERADOR" "=" 2;
            mkSymbol "NUMERO_DECIMAL" "2.5" 2] empty_fs).
  repeat constructor.
Defined.

(** X2. The row [save] writes for an entry is read back by the body of the
    loop of [load] as that same entry, appended to the entries read so far,
    for every line number (negative ones included), when the type and the
    text hold no tab and no end of line and the type starts with no
    whitespace. *)
Theorem row_round_trip (acc : list Symbol) (symbol : Symbol) :
  storable symbol ->
  SymbolTable.load_line acc (SymbolTable.row symbol)
  = Ok (acc ++ [symbol])%list.
Proof.
  apply load_line_row.
Qed.

Lemma row_round_trip_witness :
  SymbolTable.load_line [] (SymbolTable.row (mkSymbol "STRING" "a b" (-12)))
  = Ok ([] ++ [mkSymbol "STRING" "a b" (-12)])%list.
Proof.
  apply (row_round_trip [] (mkSymbol "STRING" "a b" (-12))).
  repeat split.
Defined.

Lemma write_file_same (fs : FileSystem) (name contents : string) :
  write_file fs name contents name = Some contents.
Proof. unfold write_file. rewrite String.eqb_refl. reflexivity. Qed.

Lemma write_file_other (fs : FileSystem) (name contents f : string) :
  f <> name -> write_file fs name contents f = fs f.
Proof.
  intros H. unfold write_file.
  destruct (String.eqb f name) eqn:E; [|reflexivity].
  apply String.eqb_eq in E. contradiction.
Qed.

(** X3. [SymbolTable(filename)] on a file system where the file does not
    exist writes the eleven-line header to that file, touches no other file,
    does not raise and starts with no entry: of the eleven lines, eight are
    skipped and the last three hold no tab. *)
Theorem init_without_file (name : string) (fs : FileSystem) :
  fs name = None ->
  exists fs',
    SymbolTable.__init__ name fs = (Ok (SymbolTable.mk name []), fs') /\
    fs' name = Some SymbolTable.long_header /\
    (forall f, f <> name -> fs' f = fs f).
Proof.
  intros H. exists (write_file fs name SymbolTable.long_header).
  split; [|split].
  - unfold SymbolTable.__init__, SymbolTable._create_file, exists_,
      SymbolTable.load.
    cbn [SymbolTable.filename SymbolTable.symbols].
    rewrite H. cbn [negb]. rewrite write_file_same. reflexivity.
  - apply write_file_same.
  - intros f Hf. apply write_file_other. assumption.
Qed.

Lemma init_without_file_witness :
  exists fs',
    SymbolTable.__init__ "tabla_simbolos.dat" empty_fs
      = (Ok (SymbolTable.mk "tabla_simbolos.dat" []), fs') /\
    fs' "tabla_simbolos.dat" = Some SymbolTable.long_header /\
    (forall f, f <> "tabla_simbolos.dat" -> fs' f = empty_fs f).
Proof.
  apply (init_without_file "tabla_simbolos.dat" empty_fs). reflexivity.
Defined.

(** The fields of a split are one more than the separators. *)
Lemma split_length (sep : ascii) (s : string) :
  length (split sep s) = S (count_char sep s).
Proof.
  induction s as [|c s IH]; simpl; [reflexivity|].
  destruct (Ascii.eqb c sep); simpl.
  - rewrite IH. reflexivity.
  - destruct (split sep s) as [|h t]; simpl in *; [discriminate|assumption].
Qed.

Lemma load_line_skips acc ln :
  count_char TAB (strip ln) <> 2 -> SymbolTable.load_line acc ln = Ok acc.
Proof.
  intros H. unfold SymbolTable.load_line.
  pose proof (split_length TAB (strip ln)) as Hlen.
  destruct (split TAB (strip ln)) as [|p0 [|p1 [|p2 [|p3 r]]]];
    try reflexivity.
  simpl in Hlen. exfalso. apply H. lia.
Qed.

(** X4. [load] is lenient: a line after the eighth that, once stripped,
    does not hold exactly two tabs adds no entry and raises nothing.  When
    every line after the eighth is such a line (in particular when the file
    has at most eight lines), [load] leaves the table as it is. *)
Theorem load_skips_malformed_lines
    (self : SymbolTable.t) (fs : FileSystem) (contents : string) :
  fs (SymbolTable.filename self) = Some contents ->
  Forall (fun ln => count_char TAB (strip ln) <> 2)
    (skipn 8 (readlines contents)) ->
  SymbolTable.load self fs = Ok self.
Proof.
  intros Hfile Hall. unfold SymbolTable.load. rewrite Hfile.
  assert (Hl : forall lines acc,
             Forall (fun ln => count_char TAB (strip ln) <> 2) lines ->
             SymbolTable.load_lines acc lines = Ok acc).
  { induction lines as [|ln rest IH]; intros acc HF; simpl; [reflexivity|].
    inversion HF as [|x l Hx Hrest]; subst.
    rewrite load_line_skips by assumption. apply IH. assumption. }
  rewrite Hl by assumption. destruct self. reflexivity.
Qed.

Lemma load_skips_malformed_lines_witness :
  let contents :=
    "1" ++ String LF "2" ++ String LF "3" ++ String LF "4" ++ String LF "5"
    ++ String LF "6" ++ String LF "7" ++ String LF "8"
    ++ String LF ("A" ++ String TAB "b") ++ String LF ""
    ++ String LF ("A" ++ String TAB "b" ++ String TAB "1" ++ String TAB "c")
  in
  SymbolTable.load (SymbolTable.mk "t.dat" [mkSymbol "OPERADOR" "+" 3])
    (write_file empty_fs "t.dat" contents)
  = Ok (SymbolTable.mk "t.dat" [mkSymbol "OPERADOR" "+" 3]).
Proof.
  cbv zeta.
  apply (load_skips_malformed_lines
           (SymbolTable.mk "t.dat" [mkSymbol "OPERADOR" "+" 3])
           (write_file empty_fs "t.dat" _) _ eq_refl).
  vm_compute. repeat constructor; intros H; discriminate H.
Defined.

(** ** Numbers, strings, comments and blanks *)

Section ScannerBranches.

Context {St : Type}.
Variable add_symbol : string -> string -> Z -> St -> St.
Variable errors_append : string -> St -> St.

(** A run of digits that ends at [j]: the number loop stops at [j] with
    [has_decimal] unset. *)
Lemma number_loop_integer line line_num i j s :
  i <= j <= String.length line ->
  (forall k, i <= k < j -> isdigit (char_at line k) = true) ->
  (j < String.length line ->
   isdigit (char_at line j) = false /\
   Ascii.eqb (char_at line j) "." = false) ->
  number_loop errors_append line line_num (i, false, s) = Some (j, false, s).
Proof.
  intros Hij Hdig Hend.
  destruct (number_loop_total errors_append line line_num (i, false, s))
    as [r Hr].
  rewrite Hr. f_equal. unfold number_loop in Hr.
  apply (while_loop_post (number_cond line)
           (number_body errors_append line line_num)
           (fun '(k, h, s') => i <= k <= j /\ h = false /\ s' = s)
           (fun r => r = (j, false, s)))
    with (fuel := String.length line) (s := (i, false, s));
    try assumption; [| |repeat split; lia].
  - intros [[k h] s'] [Hk [-> ->]] Hc.
    destruct (Nat.eq_dec k j) as [->|Hne]; [reflexivity|]. exfalso.
    unfold number_cond in Hc.
    rewrite (Hdig k) in Hc by lia.
    assert (Hlt : (k <? String.length line)%nat = true)
      by (apply Nat.ltb_lt; lia).
    rewrite Hlt in Hc. discriminate.
  - intros [[k h] s'] fl [Hk [-> ->]] Hc Hb.
    unfold number_cond in Hc. apply andb_true_iff in Hc as [Hlt Hc].
    apply Nat.ltb_lt in Hlt.
    assert (Hkj : k < j).
    { destruct (Nat.eq_dec k j) as [->|Hne]; [|lia].
      destruct (Hend Hlt) as [E1 E2]. rewrite E1, E2 in Hc. discriminate. }
    unfold number_body in Hb.
    destruct (isdigit_class _ (Hdig k ltac:(lia))) as [_ [_ Hpt]].
    rewrite Hpt in Hb. injection Hb as <-. repeat split; lia.
Qed.

(** A run of digits with one point, at [d], that ends at [j]: the number
    loop stops at [j] with [has_decimal] set and reports nothing. *)
Lemma number_loop_decimal line line_num i d j s :
  i <= d < j -> j <= String.length line ->
  char_at line d = "."%char ->
  (forall k, i <= k < j -> k <> d -> isdigit (char_at line k) = true) ->
  (j < String.length line ->
   isdigit (char_at line j) = false /\
   Ascii.eqb (char_at line j) "." = false) ->
  number_loop errors_append line line_num (i, false, s) = Some (j, true, s).
Proof.
  intros Hid Hjn Hd Hdig Hend.
  destruct (number_loop_total errors_append line line_num (i, false, s))
    as [r Hr].
  rewrite Hr. f_equal. unfold number_loop in Hr.
  apply (while_loop_post (number_cond line)
           (number_body errors_append line line_num)
           (fun '(k, h, s') => i <= k <= j /\ h = (d <? k)%nat /\ s' = s)
           (fun r => r = (j, true, s)))
    with (fuel := String.length line) (s := (i, false, s));
    try assumption.
  - intros [[k h] s'] [Hk [-> ->]] Hc.
    destruct (Nat.eq_dec k j) as [->|Hne].
    + f_equal. f_equal. apply Nat.ltb_lt. lia.
    + exfalso. unfold number_cond in Hc.
      assert (Hlt : (k <? String.length line)%nat = true)
        by (apply Nat.ltb_lt; lia).
      rewrite Hlt in Hc. simpl in Hc.
      destruct (Nat.eq_dec k d) as [->|Hkd].
      * rewrite Hd in Hc. discriminate.
      * rewrite (Hdig k) in Hc by lia. discriminate.
  - intros [[k h] s'] fl [Hk [-> ->]] Hc Hb.
    unfold number_cond in Hc. apply andb_true_iff in Hc as [Hlt Hc].
    apply Nat.ltb_lt in Hlt.
    assert (Hkj : k < j).
    { destruct (Nat.eq_dec k j) as [->|Hne]; [|lia].
      destruct (Hend Hlt) as [E1 E2]. rewrite E1, E2 in Hc. discriminate. }
    unfold number_body in Hb.
    destruct (Nat.eq_dec k d) as [->|Hkd].
    + rewrite Hd, Nat.ltb_irrefl in Hb. simpl in Hb. injection Hb as <-.
      repeat split; try lia. symmetry. apply Nat.ltb_lt. lia.
    + destruct (isdigit_class _ (Hdig k ltac:(lia) Hkd)) as [_ [_ Hpt]].
      rewrite Hpt in Hb. injection Hb as <-.
      repeat split; try lia.
      destruct (d <? k)%nat eqn:E1, (d <? k + 1)%nat eqn:E2;
        try reflexivity.
      * apply Nat.ltb_lt in E1. apply Nat.ltb_ge in E2. lia.
      * apply Nat.ltb_ge in E1. apply Nat.ltb_lt in E2. lia.
  - repeat split; try lia. symmetry. apply Nat.ltb_ge. lia.
Qed.

(** From an opening quote at [i], the string loop stops on the first quote
    after it. *)
Lemma string_loop_closing line i j :
  i < j < String.length line ->
  char_at line j = DQUOTE ->
  (forall k, i < k < j -> char_at line k <> DQUOTE) ->
  string_loop line (i + 1) = Some j.
Proof.
  intros Hij Hq Hnone.
  destruct (string_loop_spec line (i + 1)) as [j' [Hj' [Hle [Hall Hend]]]].
  rewrite Hj'. f_equal.
  destruct (Nat.lt_trichotomy j' j) as [Hlt|[->|Hgt]]; [|reflexivity|].
  - exfalso. apply (Hnone j'); [lia|].
    apply andb_false_iff in Hend as [Hend|Hend].
    + apply Nat.ltb_ge in Hend. lia.
    + apply negb_false_iff in Hend. apply Ascii.eqb_eq. assumption.
  - exfalso. destruct (Hall j ltac:(lia)) as [_ Hne].
    rewrite Hq, Ascii.eqb_refl in Hne. discriminate.
Qed.

(** From the two slashes of a comment the loop of the line is over and the
    state is as it was. *)
Lemma tokenize_from_comment line line_num i s :
  comment_start line i = true ->
  tokenize_from add_symbol errors_append line line_num i s = Some s.
Proof.
  intros Hc. pose proof Hc as Hc'. unfold comment_start in Hc'.
  apply andb_true_iff in Hc' as [Hc' _].
  apply andb_true_iff in Hc' as [Hlt Hsl].
  apply Nat.ltb_lt in Hlt.
  assert (Hop : char_in (char_at line i) operators = true).
  { apply Ascii.eqb_eq in Hsl. rewrite Hsl. reflexivity. }
  destruct (operator_class _ Hop) as [Hsp [Hid [Hdig Hq]]].
  apply (tokenize_from_stop add_symbol errors_append line line_num i s i s);
    [lia|].
  unfold tokenize_body. unfold comment_start in Hc.
  rewrite Hsp, Hid, Hdig, Hq, Hc. reflexivity.
Qed.

Lemma string_forall_char_at p (s : string) : forall i,
  string_forall p s = true -> i < String.length s ->
  p (char_at s i) = true.
Proof.
  unfold char_at. induction s as [|c s IH]; intros i H Hi; simpl in *;
    [lia|].
  apply andb_true_iff in H as [Hc Hs].
  destruct i as [|i]; [assumption|]. apply IH; [assumption|lia].
Qed.

(** A line of whitespace only leaves the state as it is. *)
Lemma tokenize_line_blank line line_num s :
  string_forall isspace line = true ->
  tokenize_line add_symbol errors_append line line_num s = Some s.
Proof.
  intros Hsp. unfold tokenize_line.
  assert (H : forall k i, String.length line - i <= k ->
            tokenize_from add_symbol errors_append line line_num i s
            = Some s).
  { induction k as [|k IH]; intros i Hk.
    - apply tokenize_from_end. lia.
    - destruct (Nat.lt_ge_cases i (String.length line)) as [Hlt|Hge];
        [|apply tokenize_from_end; assumption].
      rewrite (tokenize_from_next add_symbol errors_append
                 line line_num i s (i + 1) s Hlt).
      + apply IH. lia.
      + unfold tokenize_body.
        rewrite (string_forall_char_at _ _ _ Hsp Hlt). reflexivity. }
  apply (H (String.length line)). lia.
Qed.

End ScannerBranches.

(** X5. A number without a second point.  At a cursor on a digit, a
    maximal run of digits is appended as one NUMERO_ENTERO entry, and a
    maximal run of digits with exactly one point (which may be its last
    character, as in [3.]) as one NUMERO_DECIMAL entry; the text of the
    entry is the run, the cursor moves to its end, and no error is
    recorded.  A digit is what [str.isdigit] says, so the superscript
    digits belong to the run: the two characters 5, superscript two are one
    NUMERO_ENTERO. *)
Theorem number_token :
  (forall (line : string) (line_num : Z) (i j : nat) (st : state),
      i < j <= String.length line ->
      (forall k, i <= k < j -> isdigit (char_at line k) = true) ->
      (j < String.length line ->
       isdigit (char_at line j) = false /\
       Ascii.eqb (char_at line j) "." = false) ->
      exists st',
        tokenize_body add_symbol errors_append line line_num (i, st)
          = Some (Next (j, st')) /\
        entries st' =
          (entries st ++
           [mkSymbol "NUMERO_ENTERO" (slice line i j) line_num])%list /\
        error_list st' = error_list st) /\
  (forall (line : string) (line_num : Z) (i d j : nat) (st : state),
      i < d < j -> j <= String.length line ->
      char_at line d = "."%char ->
      (forall k, i <= k < j -> k <> d -> isdigit (char_at line k) = true) ->
      (j < String.length line ->
       isdigit (char_at line j) = false /\
       Ascii.eqb (char_at line j) "." = false) ->
      exists st',
        tokenize_body add_symbol errors_append line line_num (i, st)
          = Some (Next (j, st')) /\
        entries st' =
          (entries st ++
           [mkSymbol "NUMERO_DECIMAL" (slice line i j) line_num])%list /\
        error_list st' = error_list st) /\
  (forall st : state,
      exists st',
        analyze (String "5" (String SUPERSCRIPT_TWO "")) st = Some st' /\
        entries st' =
          [mkSymbol "NUMERO_ENTERO" (String "5" (String SUPERSCRIPT_TWO "")) 1]
        /\ error_list st' = []).
Proof.
  split; [|split].
  - intros line line_num i j st Hij Hdigits Hend.
    assert (Hdig : isdigit (char_at line i) = true) by (apply Hdigits; lia).
    destruct (isdigit_class _ Hdig) as [Hsp [Hid _]].
    exists (add_symbol "NUMERO_ENTERO" (slice line i j) line_num st).
    split; [|split].
    + unfold tokenize_body.
      rewrite Hsp, Hid, Hdig.
      rewrite (number_loop_integer errors_append line line_num i j st)
        by (assumption || lia).
      reflexivity.
    + apply entries_add_symbol.
    + apply error_list_add_symbol.
  - intros line line_num i d j st Hid Hjn Hd Hdigits Hend.
    assert (Hdig : isdigit (char_at line i) = true) by (apply Hdigits; lia).
    destruct (isdigit_class _ Hdig) as [Hsp [Hident _]].
    exists (add_symbol "NUMERO_DECIMAL" (slice line i j) line_num st).
    split; [|split].
    + unfold tokenize_body.
      rewrite Hsp, Hident, Hdig.
      rewrite (number_loop_decimal errors_append line line_num i d j st)
        by (assumption || lia).
      reflexivity.
    + apply entries_add_symbol.
    + apply error_list_add_symbol.
  - intros st. apply analyze_log_from_fresh. vm_compute. reflexivity.
Qed.

(** The hypotheses of X5 hold on [n = 42;] from the cursor 4 and on [3.],
    a line that ends on the point. *)
Lemma number_token_witness :
  (exists st',
      tokenize_body add_symbol errors_append "n = 42;" 1 (4, fresh)
        = Some (Next (6, st')) /\
      entries st' =
        (entries fresh ++
         [mkSymbol "NUMERO_ENTERO" (slice "n = 42;" 4 6) 1])%list /\
      error_list st' = error_list fresh) /\
  (exists st',
      tokenize_body add_symbol errors_append "3." 1 (0, fresh)
        = Some (Next (2, st')) /\
      entries st' =
        (entries fresh ++
         [mkSymbol "NUMERO_DECIMAL" (slice "3." 0 2) 1])%list /\
      error_list st' = error_list fresh).
Proof.
  split.
  - apply (proj1 number_token "n = 42;" 1%Z 4 6 fresh).
    + simpl. lia.
    + intros k Hk. assert (Hc : k = 4 \/ k = 5) by lia.
      destruct Hc as [-> | ->]; reflexivity.
    + intros _. split; reflexivity.
  - apply (proj1 (proj2 number_token) "3." 1%Z 0 1 2 fresh).
    + lia.
    + simpl. lia.
    + reflexivity.
    + intros k Hk Hne. assert (Hc : k = 0) by lia. subst k. reflexivity.
    + simpl. lia.
Defined.

(** X6. A closed string.  At a cursor on a double quote, with the next
    double quote of the line at [j], the iteration appends one STRING entry
    whose text runs from the opening quote to the closing quote, both
    included, moves the cursor past the closing quote and records no
    error.  The first quote after the opening one closes the string,
    whatever stands before it: a backslash does not escape it. *)
Theorem string_token
    (line : string) (line_num : Z) (i j : nat) (st : state) :
  i < j < String.length line ->
  char_at line i = DQUOTE ->
  char_at line j = DQUOTE ->
  (forall k, i < k < j -> char_at line k <> DQUOTE) ->
  exists st',
    tokenize_body add_symbol errors_append line line_num (i, st)
      = Some (Next (j + 1, st')) /\
    entries st' =
      (entries st ++
       [mkSymbol "STRING" (slice line i (j + 1)) line_num])%list /\
    error_list st' = error_list st /\
    String.length (slice line i (j + 1)) = j + 1 - i /\
    String.get 0 (slice line i (j + 1)) = Some DQUOTE /\
    String.get (j - i) (slice line i (j + 1)) = Some DQUOTE.
Proof.
  intros Hij Hqi Hqj Hnone.
  pose proof (eqb_char_at _ _ _ Hqi) as Hq.
  destruct (dquote_class _ Hq) as [Hsp [Hid Hdig]].
  assert (Hget : forall k, k < String.length line ->
                 String.get k line = Some (char_at line k)).
  { intros k Hk. unfold char_at.
    destruct (String.get k line) as [c|] eqn:E; [reflexivity|].
    exfalso. revert k Hk E. clear.
    induction line as [|c l IH]; intros k Hk E; simpl in *; [lia|].
    destruct k as [|k]; [discriminate|]. apply (IH k); [lia|assumption]. }
  exists (add_symbol "STRING" (slice line i (j + 1)) line_num st).
  split; [|split; [|split; [|split; [|split]]]].
  - unfold tokenize_body.
    rewrite Hsp, Hid, Hdig, Hq.
    rewrite (string_loop_closing line i j Hij Hqj Hnone).
    assert (Hn : (String.length line <=? j)%nat = false)
      by (apply Nat.leb_gt; lia).
    rewrite Hn. reflexivity.
  - apply entries_add_symbol.
  - apply error_list_add_symbol.
  - apply slice_length. lia.
  - rewrite slice_get by lia. rewrite Nat.add_0_r, Hget by lia.
    rewrite Hqi. reflexivity.
  - rewrite slice_get by lia.
    replace (i + (j - i)) with j by lia.
    rewrite Hget by lia. rewrite Hqj. reflexivity.
Qed.

(** The hypotheses of X6 hold on the line made of a quote, [a], a
    backslash, a quote, [b] and a quote: the string ends at the second
    quote. *)
Lemma string_token_witness :
  let line :=
    String DQUOTE ("a" ++ String (ascii_of_nat 92)
                     (String DQUOTE ("b" ++ String DQUOTE ""))) in
  exists st',
    tokenize_body add_symbol errors_append line 1 (0, fresh)
      = Some (Next (3 + 1, st')) /\
    entries st' =
      (entries fresh ++ [mkSymbol "STRING" (slice line 0 (3 + 1)) 1])%list /\
    error_list st' = error_list fresh /\
    String.length (slice line 0 (3 + 1)) = 3 + 1 - 0 /\
    String.get 0 (slice line 0 (3 + 1)) = Some DQUOTE /\
    String.get (3 - 0) (slice line 0 (3 + 1)) = Some DQUOTE.
Proof.
  cbv zeta.
  apply (string_token _ 1%Z 0 3 fresh).
  - simpl. lia.
  - reflexivity.
  - reflexivity.
  - intros k Hk. assert (Hc : k = 1 \/ k = 2) by lia.
    destruct Hc as [-> | ->]; vm_compute; discriminate.
Defined.

(** X7. A comment.  At a cursor on two consecutive slashes the scan of the
    line stops: nothing of the rest of the line is recorded, neither entry
    nor error, whatever it holds, and the scan goes on with the next line
    from the analyzer left by what stands before the slashes. *)
Theorem comment_discards_rest_of_line :
  (forall (line : string) (line_num : Z) (i : nat) (st : state),
      i + 1 < String.length line ->
      char_at line i = "/"%char ->
      char_at line (i + 1) = "/"%char ->
      tokenize_from add_symbol errors_append line line_num i st = Some st) /\
  (forall (line : string) (line_num : Z) (rest : list (Z * string))
          (st0 : state) (i : nat) (st : state),
      reaches add_symbol errors_append line line_num (0, st0) (i, st) ->
      i + 1 < String.length line ->
      char_at line i = "/"%char ->
      char_at line (i + 1) = "/"%char ->
      tokenize_lines add_symbol errors_append ((line_num, line) :: rest) st0 =
      tokenize_lines add_symbol errors_append rest st).
Proof.
  assert (Hc : forall line i,
             i + 1 < String.length line ->
             char_at line i = "/"%char -> char_at line (i + 1) = "/"%char ->
             comment_start line i = true).
  { intros line i Hlt H1 H2. unfold comment_start.
    rewrite H1, H2. apply Nat.ltb_lt in Hlt. rewrite Hlt. reflexivity. }
  split.
  - intros line line_num i st Hlt H1 H2.
    apply tokenize_from_comment. apply Hc; assumption.
  - intros line line_num rest st0 i st Hreach Hlt H1 H2.
    pose proof (tokenize_from_reaches _ _ _ _ _ _ Hreach) as E.
    simpl in E. simpl. unfold tokenize_line. rewrite E.
    rewrite tokenize_from_comment by (apply Hc; assumption). reflexivity.
Qed.

(** The hypotheses of X7 hold on [x // y @], at the slashes. *)
Lemma comment_discards_rest_of_line_witness :
  tokenize_from add_symbol errors_append "x // y @" 1 2
    (add_symbol "IDENTIFICADOR" "x" 1 fresh)
  = Some (add_symbol "IDENTIFICADOR" "x" 1 fresh) /\
  tokenize_lines add_symbol errors_append [(1%Z, "x // y @"); (2%Z, "z")]
    fresh =
  tokenize_lines add_symbol errors_append [(2%Z, "z")]
    (add_symbol "IDENTIFICADOR" "x" 1 fresh).
Proof.
  split.
  - apply (proj1 comment_discards_rest_of_line "x // y @" 1%Z 2);
      [simpl; lia|reflexivity|reflexivity].
  - apply (proj2 comment_discards_rest_of_line
             "x // y @" 1%Z [(2%Z, "z")] fresh 2);
      [|simpl; lia|reflexivity|reflexivity].
    apply (reaches_next _ _ _ _ 0 fresh 1
             (add_symbol "IDENTIFICADOR" "x" 1 fresh));
      [simpl; lia|reflexivity|].
    apply (reaches_next _ _ _ _ 1 _ 2
             (add_symbol "IDENTIFICADOR" "x" 1 fresh));
      [simpl; lia|reflexivity|].
    apply reaches_here.
Defined.

Lemma split_forall p (sep : ascii) (s : string) :
  string_forall p s = true ->
  Forall (fun l => string_forall p l = true) (split sep s).
Proof.
  induction s as [|c s IH]; simpl; intros H.
  - repeat constructor.
  - apply andb_true_iff in H as [Hc Hs]. specialize (IH Hs).
    destruct (Ascii.eqb c sep).
    + constructor; [reflexivity|assumption].
    + destruct (split sep s) as [|h t]; [repeat constructor; simpl;
        rewrite Hc; reflexivity|].
      inversion IH as [|x l Hh Ht]; subst.
      constructor; [simpl; rewrite Hc, Hh; reflexivity|assumption].
Qed.

Lemma tokenize_lines_blank {St : Type}
    (add : string -> string -> Z -> St -> St) (err : string -> St -> St)
    (lines : list string) : forall k s,
  Forall (fun l => string_forall isspace l = true) lines ->
  tokenize_lines add err (enumerate lines k) s = Some s.
Proof.
  induction lines as [|l rest IH]; intros k s H; simpl; [reflexivity|].
  inversion H as [|x r Hl Hrest]; subst.
  rewrite tokenize_line_blank by assumption. apply IH. assumption.
Qed.

(** X8. A text of whitespace only, the empty text included, however many
    lines it has: [analyze] returns with no entry and no error, whatever
    the analyzer held before. *)
Theorem analyze_blank_text (code : string) (st : state) :
  string_forall isspace code = true ->
  exists st',
    analyze code st = Some st' /\ entries st' = [] /\ error_list st' = [].
Proof.
  intros H. destruct st as [self fs]. unfold analyze. simpl.
  rewrite tokenize_lines_blank by (apply split_forall; assumption).
  eexists. split; [reflexivity|]. split; reflexivity.
Qed.

(** The hypothesis of X8 holds on two spaces, an end of line and a tab. *)
Lemma analyze_blank_text_witness :
  exists st',
    analyze ("  " ++ String LF (String TAB "")) fresh = Some st' /\
    entries st' = [] /\ error_list st' = [].
Proof.
  apply (analyze_blank_text ("  " ++ String LF (String TAB "")) fresh).
  reflexivity.
Defined.

(** ** What a pass keeps true *)

(** A property of the state that both calls keep is kept by the scan of
    any lines. *)
Lemma tokenize_lines_invariant {St : Type}
    (add : string -> string -> Z -> St -> St) (err : string -> St -> St)
    (P : St -> Prop) :
  (forall ty v ln s, P s -> P (add ty v ln s)) ->
  (forall msg s, P s -> P (err msg s)) ->
  forall lines s r,
    tokenize_lines add err lines s = Some r -> P s -> P r.
Proof.
  intros Hadd Herr lines s r Hrun HP.
  pose proof (tokenize_lines_rel add err
                (fun _ _ _ (u : unit) => u) (fun _ (u : unit) => u)
                (fun s (_ : unit) => P s)
                ltac:(intros; apply Hadd; assumption)
                ltac:(intros; apply Herr; assumption)
                lines s tt HP) as H.
  rewrite Hrun in H. unfold option_rel in H.
  destruct (tokenize_lines _ _ lines tt); [assumption|contradiction].
Qed.

(** After [analyze] the file of the table holds the rows of the entries,
    and nothing else has been written. *)
Lemma analyze_keeps_file (code : string) (st : state) :
  let name := SymbolTable.filename (symbol_table (fst st)) in
  exists st',
    analyze code st = Some st' /\
    SymbolTable.filename (symbol_table (fst st')) = name /\
    snd st' name = Some (saved_contents (entries st')) /\
    (forall f, f <> name -> snd st' f = snd st f).
Proof.
  intros name. destruct (analyze_total code st) as [st' Hrun].
  exists st'. split; [assumption|].
  destruct st as [[[name0 syms] errs] fs]. simpl in name. subst name.
  unfold analyze in Hrun. simpl in Hrun.
  apply (tokenize_lines_invariant add_symbol errors_append
           (fun s =>
              SymbolTable.filename (symbol_table (fst s)) = name0 /\
              snd s name0 = Some (saved_contents (entries s)) /\
              (forall f, f <> name0 -> snd s f = fs f)))
    with (r := st') in Hrun; [exact Hrun| | |].
  - intros ty v ln [[[n sy] er] fs1] [Hn [Hfile Hother]].
    simpl in Hn. subst n. simpl. split; [reflexivity|]. split.
    + unfold SymbolTable.save. cbn [SymbolTable.filename SymbolTable.symbols].
      apply write_file_same.
    + intros f Hf. unfold SymbolTable.save.
      cbn [SymbolTable.filename]. rewrite write_file_other by assumption.
      apply Hother. assumption.
  - intros msg [[[n sy] er] fs1] H. exact H.
  - simpl. split; [reflexivity|]. split.
    + unfold SymbolTable.save. cbn [SymbolTable.filename SymbolTable.symbols].
      apply write_file_same.
    + intros f Hf. unfold SymbolTable.save.
      cbn [SymbolTable.filename]. apply write_file_other. assumption.
Qed.

(** X9. The file always mirrors the table.  After [analyze], the file of
    the table holds exactly the three header lines followed by one row per
    recorded entry, in order; the table is still bound to the same file
    name, and no other file has been written. *)
Theorem analyze_file_mirrors_table (code : string) (st : state) :
  let name := SymbolTable.filename (symbol_table (fst st)) in
  exists st',
    analyze code st = Some st' /\
    SymbolTable.filename (symbol_table (fst st')) = name /\
    snd st' name = Some (saved_contents (entries st')) /\
    (forall f, f <> name -> snd st' f = snd st f).
Proof.
  apply analyze_keeps_file.
Qed.

(** ** What the scan of a line appends *)

Lemma substring_empty (s : string) (n : nat) : String.substring n 0 s = "".
Proof.
  revert n. induction s as [|c s IH]; intros [|n]; simpl; auto.
Qed.

Lemma get_char_at (s : string) : forall i,
  i < String.length s -> String.get i s = Some (char_at s i).
Proof.
  unfold char_at. induction s as [|c s IH]; intros i Hi; simpl in *; [lia|].
  destruct i as [|i]; [reflexivity|]. apply IH. lia.
Qed.

Lemma slice_one (s : string) : forall i,
  i < String.length s -> slice s i (i + 1) = String (char_at s i) "".
Proof.
  unfold slice, char_at. induction s as [|c s IH]; intros i Hi;
    simpl in *; [lia|].
  replace (i + 1 - i) with 1 by lia.
  destruct i as [|i].
  - simpl. rewrite substring_empty. reflexivity.
  - specialize (IH i ltac:(lia)).
    replace (i + 1 - i) with 1 in IH by lia. exact IH.
Qed.

Lemma slice_two (s : string) : forall i,
  i + 1 < String.length s ->
  slice s i (i + 2) = String (char_at s i) (String (char_at s (i + 1)) "").
Proof.
  induction s as [|c s IH]; intros i Hi; simpl in *; [lia|].
  destruct i as [|i].
  - pose proof (slice_one s 0 ltac:(lia)) as H1.
    unfold slice in *. simpl in *. rewrite H1. reflexivity.
  - specialize (IH i ltac:(lia)). unfold slice in *.
    replace (S i + 2 - S i) with 2 by lia.
    replace (i + 2 - i) with 2 in IH by lia.
    exact IH.
Qed.

Section LineInvariant.

Context {St : Type}.
Variable add : string -> string -> Z -> St -> St.
Variable err : string -> St -> St.
Variable line : string.
Variable line_num : Z.
Variable P : St -> Prop.

(** The scan of [line] calls [add_symbol] only with one of the six types,
    a non-empty slice of [line] and the number of the line. *)
Hypothesis P_add :
  forall ty v s, token_of line ty v -> P s -> P (add ty v line_num s).
Hypothesis P_err :
  forall msg s, error_of line line_num msg -> P s -> P (err msg s).

Lemma number_loop_invariant st r :
  number_loop err line line_num st = Some r ->
  P (snd st) -> P (snd r).
Proof.
  unfold number_loop. intros Hr HP.
  apply (while_loop_post (number_cond line) (number_body err line line_num)
           (fun x => P (snd x)) (fun x => P (snd x)))
    with (fuel := String.length line) (s := st); try assumption.
  - intros x Hx _. assumption.
  - intros [[k h] s] fl Hx _ Hb. simpl in Hx. unfold number_body in Hb.
    destruct (Ascii.eqb (char_at line k) "."); [destruct h|];
      injection Hb as <-; simpl; auto.
    apply P_err; [left; reflexivity|assumption].
Qed.

Lemma token_of_intro ty a b :
  In ty token_types -> a < b <= String.length line ->
  token_of line ty (slice line a b).
Proof. intros Hty Hab. split; [assumption|]. exists a, b. auto. Qed.

Lemma tokenize_body_invariant i s fl :
  i < String.length line ->
  tokenize_body add err line line_num (i, s) = Some fl ->
  P s ->
  match fl with
  | Next x => P (snd x)
  | Stop x => P (snd x)
  end.
Proof.
  intros Hlt Hb HP. unfold tokenize_body in Hb.
  destruct (isspace (char_at line i)).
  { injection Hb as <-. assumption. }
  destruct (isalpha (char_at line i) || Ascii.eqb (char_at line i) "_")
    eqn:Hstart.
  { destruct (identifier_loop_spec line i) as [j [Hj [Hle [Hall Hend]]]].
    rewrite Hj in Hb.
    assert (Hij : i < j <= String.length line).
    { destruct (Nat.eq_dec i j) as [<-|Hne].
      - rewrite (ident_start_ident_char _ Hstart) in Hend.
        apply andb_false_iff in Hend as [Hend|Hend]; [|discriminate].
        apply Nat.ltb_ge in Hend. lia.
      - destruct (Hall (j - 1)); lia. }
    destruct (str_in _ _); injection Hb as <-; simpl;
      (apply P_add; [apply token_of_intro; [simpl; tauto|exact Hij]|exact HP]).
  }
  destruct (isdigit (char_at line i)) eqn:Hdig.
  { destruct (number_loop_advances err line line_num i s Hlt Hdig)
      as [j [h [s' [Hj Hij]]]].
    pose proof (number_loop_invariant _ _ Hj HP) as HP'. simpl in HP'.
    rewrite Hj in Hb.
    destruct h; injection Hb as <-; simpl;
      (apply P_add; [apply token_of_intro; [simpl; tauto|exact Hij]|exact HP']).
  }
  destruct (Ascii.eqb (char_at line i) DQUOTE).
  { destruct (string_loop_spec line (i + 1)) as [j [Hj [Hle _]]].
    rewrite Hj in Hb.
    destruct (String.length line <=? j)%nat eqn:Hn.
    - injection Hb as <-. simpl.
      apply P_err; [right; left; reflexivity|assumption].
    - apply Nat.leb_gt in Hn. injection Hb as <-. simpl.
      apply P_add; [|assumption].
      apply token_of_intro; [simpl; tauto|lia]. }
  destruct ((i + 1 <? String.length line)%nat
            && Ascii.eqb (char_at line i) "/"
            && Ascii.eqb (char_at line (i + 1)) "/").
  { injection Hb as <-. assumption. }
  destruct (char_in (char_at line i) operators).
  { destruct (i + 1 <? String.length line)%nat eqn:Hn1.
    - apply Nat.ltb_lt in Hn1.
      destruct (str_in _ two_char_operators); injection Hb as <-; simpl.
      + rewrite <- slice_two by assumption.
        apply P_add; [|assumption].
        apply token_of_intro; [simpl; tauto|lia].
      + rewrite <- slice_one by assumption.
        apply P_add; [|assumption].
        apply token_of_intro; [simpl; tauto|lia].
    - injection Hb as <-; simpl.
      rewrite <- slice_one by assumption.
      apply P_add; [|assumption].
      apply token_of_intro; [simpl; tauto|lia]. }
  injection Hb as <-. simpl.
  apply P_err; [right; right; exists i; auto|assumption].
Qed.

Lemma tokenize_line_invariant s r :
  tokenize_line add err line line_num s = Some r -> P s -> P r.
Proof.
  unfold tokenize_line, tokenize_from. intros Hr HP.
  destruct (while_loop (String.length line) (in_line line)
              (tokenize_body add err line line_num) (0, s))
    as [[j r']|] eqn:Hw; [|discriminate].
  simpl in Hr. injection Hr as <-.
  apply (while_loop_post (in_line line)
           (tokenize_body add err line line_num)
           (fun x => P (snd x)) (fun x => P (snd x)))
    with (fuel := String.length line) (s := (0, s)) (r := (j, r'));
    try assumption.
  - intros x Hx _. assumption.
  - intros [k sk] fl Hx Hc Hb. apply Nat.ltb_lt in Hc.
    pose proof (tokenize_body_invariant k sk fl Hc Hb Hx) as H.
    destruct fl; assumption.
Qed.

End LineInvariant.

Lemma in_enumerate_bounds {A : Type} (l : list A) : forall start k x,
  In (k, x) (enumerate l start) ->
  (start <= k < start + Z.of_nat (length l))%Z.
Proof.
  induction l as [|y l IH]; intros start k x H; simpl in *; [contradiction|].
  destruct H as [H|H].
  - injection H as <- <-. lia.
  - apply IH in H. lia.
Qed.

Lemma token_of_nonempty l ty v : token_of l ty v -> v <> "".
Proof.
  intros [_ [a [b [Hab ->]]]] E.
  pose proof (slice_length l a b ltac:(lia)) as Hlen.
  rewrite E in Hlen. simpl in Hlen. lia.
Qed.

(** The entries the scan of some lines appends are tokens of those lines,
    with the numbers of their lines. *)
Lemma tokenize_lines_tokens (all : list (Z * string)) :
  forall rest k (s r : state),
    (forall p, In p (enumerate rest k) -> In p all) ->
    tokenize_lines add_symbol errors_append (enumerate rest k) s = Some r ->
    Forall (fun e => exists l, In (line e, l) all /\
                               token_of l (type e) (value e)) (entries s) ->
    Forall (fun e => exists l, In (line e, l) all /\
                               token_of l (type e) (value e)) (entries r).
Proof.
  induction rest as [|l rest IH]; intros k s r Hin Hrun HP; simpl in Hrun.
  - injection Hrun as <-. assumption.
  - destruct (tokenize_line add_symbol errors_append l k s) as [s1|] eqn:H1;
      [|discriminate].
    apply (IH (k + 1)%Z s1 r); [|assumption|].
    + intros p Hp. apply Hin. right. assumption.
    + apply (tokenize_line_invariant add_symbol errors_append l k
               (fun s => Forall (fun e => exists l, In (line e, l) all /\
                                   token_of l (type e) (value e)) (entries s)))
        with (s := s); try assumption.
      * intros ty v s0 Htok H0. rewrite entries_add_symbol.
        apply Forall_app. split; [assumption|].
        constructor; [|constructor]. exists l. simpl.
        split; [apply Hin; left; reflexivity|assumption].
      * intros msg s0 _ H0. rewrite entries_errors_append. assumption.
Qed.

(** X10. Every entry can be traced to the text.  After [analyze], each
    entry has one of the six types PALABRA_RESERVADA, IDENTIFICADOR,
    NUMERO_ENTERO, NUMERO_DECIMAL, STRING, OPERADOR, carries the number of a
    line of the text (lines counted from 1), and its text is a non-empty
    slice of that very line: no token spans two lines and none is empty. *)
Theorem entries_are_tokens_of_their_lines (code : string) (st : state) :
  exists st',
    analyze code st = Some st' /\
    Forall (fun e =>
              In (type e) token_types /\
              value e <> "" /\
              exists l a b,
                In (line e, l) (enumerate (split LF code) 1) /\
                a < b <= String.length l /\
                value e = slice l a b)
      (entries st').
Proof.
  destruct (analyze_total code st) as [st' Hrun].
  exists st'. split; [assumption|].
  destruct st as [self fs]. unfold analyze in Hrun. simpl in Hrun.
  apply (tokenize_lines_tokens (enumerate (split LF code) 1)) in Hrun;
    [|auto|constructor].
  apply (Forall_impl _ (P := fun e => exists l,
           In (line e, l) (enumerate (split LF code) 1) /\
           token_of l (type e) (value e))); [|exact Hrun].
  intros e [l [Hin Htok]]. split; [apply Htok|].
  split; [apply (token_of_nonempty _ _ _ Htok)|].
  destruct Htok as [_ [a [b [Hab Hv]]]]. exists l, a, b. auto.
Qed.

Lemma sorted_snoc (l : list Z) (y : Z) :
  StronglySorted Z.le l -> Forall (fun x => (x <= y)%Z) l ->
  StronglySorted Z.le (l ++ [y]).
Proof.
  induction 1 as [|x l Hs IH Hx]; intros Hy; simpl.
  - constructor; constructor.
  - inversion Hy as [|x' l' Hxy Hl]; subst.
    constructor; [apply IH; assumption|].
    apply Forall_app. split; [assumption|]. constructor; [assumption|constructor].
Qed.

Lemma tokenize_lines_sorted :
  forall rest k (s r : state),
    tokenize_lines add_symbol errors_append (enumerate rest k) s = Some r ->
    Forall (fun e => (line e <= k)%Z) (entries s) ->
    StronglySorted Z.le (map line (entries s)) ->
    StronglySorted Z.le (map line (entries r)).
Proof.
  induction rest as [|l rest IH]; intros k s r Hrun Hle Hs; simpl in Hrun.
  - injection Hrun as <-. assumption.
  - destruct (tokenize_line add_symbol errors_append l k s) as [s1|] eqn:H1;
      [|discriminate].
    assert (H : Forall (fun e => (line e <= k)%Z) (entries s1) /\
                StronglySorted Z.le (map line (entries s1))).
    { apply (tokenize_line_invariant add_symbol errors_append l k
               (fun s => Forall (fun e => (line e <= k)%Z) (entries s) /\
                         StronglySorted Z.le (map line (entries s))))
        with (s := s); try assumption; [| |split; assumption].
      - intros ty v s0 _ [H0 H0s]. rewrite entries_add_symbol. split.
        + apply Forall_app. split; [assumption|].
          constructor; [simpl; lia|constructor].
        + rewrite map_app. simpl. apply sorted_snoc; [assumption|].
          apply Forall_map. exact H0.
      - intros msg s0 _ H0. rewrite entries_errors_append. assumption. }
    destruct H as [Hle1 Hs1].
    apply (IH (k + 1)%Z s1 r); try assumption.
    apply (Forall_impl _ (P := fun e => (line e <= k)%Z)); [|assumption].
    intros e He. lia.
Qed.

(** X11. Entries are in scan order.  After [analyze], the line numbers of
    the entries never decrease along the table, and each lies between 1 and
    the number of lines of the text. *)
Theorem entries_in_line_order (code : string) (st : state) :
  exists st',
    analyze code st = Some st' /\
    StronglySorted Z.le (map line (entries st')) /\
    Forall (fun e =>
              (1 <= line e <= Z.of_nat (length (split LF code)))%Z)
      (entries st').
Proof.
  destruct (analyze_total code st) as [st' Hrun].
  exists st'. split; [assumption|].
  destruct st as [self fs]. unfold analyze in Hrun. simpl in Hrun. split.
  - apply tokenize_lines_sorted in Hrun; [assumption|constructor|constructor].
  - apply (tokenize_lines_tokens (enumerate (split LF code) 1)) in Hrun;
      [|auto|constructor].
    apply (Forall_impl _ (P := fun e => exists l,
             In (line e, l) (enumerate (split LF code) 1) /\
             token_of l (type e) (value e))); [|exact Hrun].
    intros e [l [Hin _]]. apply in_enumerate_bounds in Hin. lia.
Qed.

(** ** Lines are scanned one by one *)

(** The scan of a line appends to the analyzer what the line records on
    its own. *)
Lemma tokenize_line_frame (l : string) (line_num : Z) (st : state) :
  exists st',
    tokenize_line add_symbol errors_append l line_num st = Some st' /\
    entries st' = (entries st ++ fst (scan_line l line_num))%list /\
    error_list st' = (error_list st ++ snd (scan_line l line_num))%list.
Proof.
  pose proof (tokenize_from_rel add_symbol errors_append log_add log_err
                (fun s lg =>
                   entries s = (entries st ++ fst lg)%list /\
                   error_list s = (error_list st ++ snd lg)%list)) as H.
  specialize (H ltac:(intros ty v ln s lg [He Hr]; split;
                      [rewrite entries_add_symbol, He; simpl;
                       symmetry; apply app_assoc
                      |rewrite error_list_add_symbol; exact Hr])).
  specialize (H ltac:(intros msg s lg [He Hr]; split;
                      [rewrite entries_errors_append; exact He
                      |rewrite error_list_errors_append, Hr; simpl;
                       symmetry; apply app_assoc])).
  specialize (H l line_num 0 st ([], [])
                ltac:(split; simpl; rewrite app_nil_r; reflexivity)).
  unfold scan_line, tokenize_line.
  destruct (tokenize_from_total add_symbol errors_append l line_num 0 st)
    as [st' Hst'].
  rewrite Hst' in H. unfold option_rel in H.
  destruct (tokenize_from log_add log_err l line_num 0 ([], []))
    as [lg|]; [|contradiction].
  exists st'. split; [assumption|exact H].
Qed.

Lemma tokenize_lines_frame (lines : list (Z * string)) : forall st : state,
  exists st',
    tokenize_lines add_symbol errors_append lines st = Some st' /\
    entries st' =
      (entries st ++
       flat_map (fun p => fst (scan_line (snd p) (fst p))) lines)%list /\
    error_list st' =
      (error_list st ++
       flat_map (fun p => snd (scan_line (snd p) (fst p))) lines)%list.
Proof.
  induction lines as [|[k l] rest IH]; intros st; simpl.
  - exists st. rewrite !app_nil_r. auto.
  - destruct (tokenize_line_frame l k st) as [s1 [H1 [He1 Hr1]]].
    rewrite H1.
    destruct (IH s1) as [st' [H' [He' Hr']]].
    exists st'. split; [assumption|].
    rewrite He', Hr', He1, Hr1, <- !app_assoc. auto.
Qed.

(** X12. Lines are scanned independently.  What [analyze] records for a
    text is, for the entries and for the errors alike, the concatenation in
    line order of what each line records when scanned on its own under its
    line number: a line's tokens and errors do not depend on the lines
    before it or after it. *)
Theorem analyze_line_by_line (code : string) (st : state) :
  exists st',
    analyze code st = Some st' /\
    entries st' =
      flat_map (fun p => fst (scan_line (snd p) (fst p)))
        (enumerate (split LF code) 1) /\
    error_list st' =
      flat_map (fun p => snd (scan_line (snd p) (fst p)))
        (enumerate (split LF code) 1).
Proof.
  destruct st as [self fs]. unfold analyze. simpl.
  destruct (tokenize_lines_frame (enumerate (split LF code) 1)
              (mk (SymbolTable.mk (SymbolTable.filename (symbol_table self))
                     []) [],
               SymbolTable.save
                 (SymbolTable.mk (SymbolTable.filename (symbol_table self))
                    []) fs))
    as [st' [H [He Hr]]].
  exists st'. split; [exact H|]. split; assumption.
Qed.

(** ** A pass, then a fresh table *)

(** A fresh table over a file that holds what [save] writes for some
    entries holds those entries without the first five. *)
Lemma load_saved_contents name symbols (fs : FileSystem) :
  fs name = Some (saved_contents symbols) ->
  Forall storable symbols ->
  SymbolTable.__init__ name fs
  = (Ok (SymbolTable.mk name (skipn 5 symbols)), fs).
Proof.
  intros Hfile H.
  unfold SymbolTable.__init__, SymbolTable._create_file, exists_,
    SymbolTable.load.
  cbn [SymbolTable.filename SymbolTable.symbols].
  rewrite Hfile. cbn [negb]. rewrite Hfile.
  unfold saved_contents. rewrite readlines_saved by assumption.
  change (skipn 8 (?a :: ?b :: ?c :: ?l)) with (skipn 5 l).
  rewrite skipn_map, load_lines_rows by (apply Forall_skipn; assumption).
  reflexivity.
Qed.

Lemma split_plain (code : string) :
  string_forall (fun c => negb (Ascii.eqb c TAB) && negb (Ascii.eqb c CR))
    code = true ->
  Forall (fun l => string_forall plain_char l = true) (split LF code).
Proof.
  induction code as [|c s IH]; simpl; intros H.
  - repeat constructor.
  - apply andb_true_iff in H as [Hc Hs]. specialize (IH Hs).
    apply andb_true_iff in Hc as [Ht Hr].
    destruct (Ascii.eqb c LF) eqn:El.
    + constructor; [reflexivity|assumption].
    + assert (Hp : plain_char c = true)
        by (unfold plain_char; rewrite Ht, Hr, El; reflexivity).
      destruct (split LF s) as [|h t];
        [repeat constructor; simpl; rewrite Hp; reflexivity|].
      inversion IH as [|x l Hh Htl]; subst.
      constructor; [simpl; rewrite Hp, Hh; reflexivity|assumption].
Qed.

Lemma string_forall_substring p (s : string) : forall n m,
  string_forall p s = true ->
  string_forall p (String.substring n m s) = true.
Proof.
  induction s as [|c s IH]; intros n m H; simpl in *.
  - destruct n, m; reflexivity.
  - apply andb_true_iff in H as [Hc Hs].
    destruct n as [|n]; [destruct m as [|m]|]; simpl; auto.
    rewrite Hc. apply IH. assumption.
Qed.

Lemma in_enumerate_In {A : Type} (l : list A) : forall start k x,
  In (k, x) (enumerate l start) -> In x l.
Proof.
  induction l as [|y l IH]; intros start k x H; simpl in *; [contradiction|].
  destruct H as [H|H]; [injection H as _ <-; auto|right; eauto].
Qed.

(** An entry whose type is one of the six and whose text is a slice of a
    line without tab and without end of line can be stored. *)
Lemma token_storable l ty v ln :
  string_forall plain_char l = true ->
  token_of l ty v ->
  storable (mkSymbol ty v ln).
Proof.
  intros Hl [Hty [a [b [_ ->]]]]. unfold storable. simpl.
  split; [|split].
  - simpl in Hty.
    destruct Hty as [<-|[<-|[<-|[<-|[<-|[<-|[]]]]]]]; reflexivity.
  - apply string_forall_substring. assumption.
  - simpl in Hty.
    destruct Hty as [<-|[<-|[<-|[<-|[<-|[<-|[]]]]]]]; reflexivity.
Qed.

(** X13. A pass, then a fresh table.  After [analyze] on a text without
    tab and without carriage return, a fresh [SymbolTable] over the file of
    the analyzer's table does not raise, leaves the file as it is, and holds
    the entries of the pass without the first five: a text of at most five
    tokens is read back as the empty table. *)
Theorem reload_after_analyze (code : string) (st : state) :
  string_forall (fun c => negb (Ascii.eqb c TAB) && negb (Ascii.eqb c CR))
    code = true ->
  exists st',
    analyze code st = Some st' /\
    SymbolTable.__init__ (SymbolTable.filename (symbol_table (fst st)))
      (snd st')
    = (Ok (SymbolTable.mk (SymbolTable.filename (symbol_table (fst st)))
             (skipn 5 (entries st'))), snd st').
Proof.
  intros Hplain.
  destruct (analyze_keeps_file code st) as [st' [Hrun [_ [Hfile _]]]].
  exists st'. split; [assumption|].
  apply load_saved_contents; [assumption|].
  destruct st as [self fs]. unfold analyze in Hrun. simpl in Hrun.
  apply (tokenize_lines_tokens (enumerate (split LF code) 1)) in Hrun;
    [|auto|constructor].
  apply (Forall_impl _ (P := fun e => exists l,
           In (line e, l) (enumerate (split LF code) 1) /\
           token_of l (type e) (value e))); [|exact Hrun].
  intros [ty v ln] [l [Hin Htok]]. simpl in *.
  apply (token_storable l); [|assumption].
  apply in_enumerate_In in Hin.
  pose proof (split_plain code Hplain) as Hall.
  rewrite Forall_forall in Hall. apply Hall. assumption.
Qed.

(** The hypothesis of X13 holds on the two lines [x = 1;] and [y = x + 2;]. *)
Lemma reload_after_analyze_witness :
  exists st',
    analyze ("x = 1;" ++ String LF "y = x + 2;") fresh = Some st' /\
    SymbolTable.__init__
      (SymbolTable.filename (symbol_table (fst fresh))) (snd st')
    = (Ok (SymbolTable.mk (SymbolTable.filename (symbol_table (fst fresh)))
             (skipn 5 (entries st'))), snd st').
Proof.
  apply (reload_after_analyze ("x = 1;" ++ String LF "y = x + 2;") fresh).
  reflexivity.
Defined.

(** ** Errors *)

(** The errors the scan of some lines appends are errors of those lines. *)
Lemma tokenize_lines_errors (all : list (Z * string)) :
  forall rest k (s r : state),
    (forall p, In p (enumerate rest k) -> In p all) ->
    tokenize_lines add_symbol errors_append (enumerate rest k) s = Some r ->
    Forall (fun m => exists k l, In (k, l) all /\ error_of l k m)
      (error_list s) ->
    Forall (fun m => exists k l, In (k, l) all /\ error_of l k m)
      (error_list r).
Proof.
  induction rest as [|l rest IH]; intros k s r Hin Hrun HP; simpl in Hrun.
  - injection Hrun as <-. assumption.
  - destruct (tokenize_line add_symbol errors_append l k s) as [s1|] eqn:H1;
      [|discriminate].
    apply (IH (k + 1)%Z s1 r); [|assumption|].
    + intros p Hp. apply Hin. right. assumption.
    + apply (tokenize_line_invariant add_symbol errors_append l k
               (fun s => Forall (fun m => exists k l,
                                   In (k, l) all /\ error_of l k m)
                           (error_list s)))
        with (s := s); try assumption.
      * intros ty v s0 _ H0. rewrite error_list_add_symbol. assumption.
      * intros msg s0 Herr H0. rewrite error_list_errors_append.
        apply Forall_app. split; [assumption|].
        constructor; [|constructor]. exists k, l.
        split; [apply Hin; left; reflexivity|assumption].
Qed.

(** X14. Every error can be traced to the text.  After [analyze], each
    error is one of the three messages of [tokenize_line], built with the
    number of a line of the text (between 1 and the number of lines); an
    unrecognized-character error names a character that stands on that
    line. *)
Theorem errors_are_errors_of_their_lines (code : string) (st : state) :
  exists st',
    analyze code st = Some st' /\
    Forall (fun m =>
              exists k l,
                In (k, l) (enumerate (split LF code) 1) /\
                (1 <= k <= Z.of_nat (length (split LF code)))%Z /\
                (m = error_multiple_points k \/
                 m = error_unterminated k \/
                 exists i, i < String.length l /\
                           m = error_unrecognized k (char_at l i)))
      (error_list st').
Proof.
  destruct (analyze_total code st) as [st' Hrun].
  exists st'. split; [assumption|].
  destruct st as [self fs]. unfold analyze in Hrun. simpl in Hrun.
  apply (tokenize_lines_errors (enumerate (split LF code) 1)) in Hrun;
    [|auto|constructor].
  apply (Forall_impl _ (P := fun m => exists k l,
           In (k, l) (enumerate (split LF code) 1) /\ error_of l k m));
    [|exact Hrun].
  intros m [k [l [Hin Herr]]]. exists k, l.
  split; [assumption|]. split; [|exact Herr].
  apply in_enumerate_bounds in Hin. lia.
Qed.

(** ** How much a pass can record *)

(** A number costs one call, or two when it has a second point, and then
    it is at least two characters long. *)
Lemma number_loop_budget l line_num k x :
  k < String.length l ->
  isdigit (char_at l k) = true ->
  exists j h x1,
    number_loop err_call l line_num (k, false, x) = Some (j, h, x1) /\
    k < j <= String.length l /\
    (x1 = x \/ (x1 = S x /\ k + 2 <= j)).
Proof.
  intros Hlt Hdig.
  destruct (number_loop_advances err_call l line_num k x Hlt Hdig)
    as [j [h [x1 [Hr Hkj]]]].
  exists j, h, x1. split; [assumption|]. split; [assumption|].
  unfold number_loop in Hr.
  destruct (String.length l) as [|n'] eqn:Hn; [lia|].
  destruct (isdigit_class _ Hdig) as [_ [_ Hpt]].
  rewrite (while_loop_step _ _ n' (k, false, x) (k + 1, false, x)) in Hr.
  - apply (while_loop_post (number_cond l) (number_body err_call l line_num)
             (fun '(m, h, y) => k < m /\ y = x /\ (h = true -> k + 2 <= m))
             (fun '(m, h, y) => y = x \/ (y = S x /\ k + 2 <= m)))
      with (fuel := n') (s := (k + 1, false, x)) (r := (j, h, x1)) in Hr;
      try assumption.
    + intros [[m hm] y] [_ [Hy _]] _. left. assumption.
    + intros [[m hm] y] fl [Hm [Hy Hh]] _ Hb. unfold number_body in Hb.
      destruct (Ascii.eqb (char_at l m) "."); [destruct hm|];
        injection Hb as <-.
      * right. subst y. split; [reflexivity|]. apply Hh. reflexivity.
      * repeat split; lia.
      * repeat split; lia.
    + repeat split; try lia.
  - unfold number_cond. rewrite Hn, Hdig.
    apply andb_true_iff. split; [apply Nat.ltb_lt; lia|reflexivity].
  - unfold number_body. rewrite Hpt. reflexivity.
Qed.

(** An iteration that continues makes no more calls than it consumes
    characters; one that breaks makes at most one call. *)
Lemma tokenize_body_budget l line_num k x fl :
  k < String.length l ->
  tokenize_body add_call err_call l line_num (k, x) = Some fl ->
  match fl with
  | Next (j, x') => k < j <= String.length l /\ x' + k <= x + j
  | Stop (_, x') => x' <= S x
  end.
Proof.
  intros Hlt Hb. unfold tokenize_body in Hb.
  destruct (isspace (char_at l k)).
  { injection Hb as <-. lia. }
  destruct (isalpha (char_at l k) || Ascii.eqb (char_at l k) "_") eqn:Hstart.
  { destruct (identifier_loop_spec l k) as [j [Hj [Hle [Hall Hend]]]].
    rewrite Hj in Hb.
    assert (Hij : k < j <= String.length l).
    { destruct (Nat.eq_dec k j) as [<-|Hne].
      - rewrite (ident_start_ident_char _ Hstart) in Hend.
        apply andb_false_iff in Hend as [Hend|Hend]; [|discriminate].
        apply Nat.ltb_ge in Hend. lia.
      - destruct (Hall (j - 1)); lia. }
    destruct (str_in _ _); injection Hb as <-; unfold add_call; lia. }
  destruct (isdigit (char_at l k)) eqn:Hdig.
  { destruct (number_loop_budget l line_num k x Hlt Hdig)
      as [j [h [x1 [Hr [Hkj Hcost]]]]].
    rewrite Hr in Hb.
    destruct h; injection Hb as <-; unfold add_call; lia. }
  destruct (Ascii.eqb (char_at l k) DQUOTE).
  { destruct (string_loop_spec l (k + 1)) as [j [Hj [Hle _]]].
    rewrite Hj in Hb.
    destruct (String.length l <=? j)%nat eqn:Hn.
    - injection Hb as <-. unfold err_call. lia.
    - apply Nat.leb_gt in Hn. injection Hb as <-. unfold add_call. lia. }
  destruct ((k + 1 <? String.length l)%nat
            && Ascii.eqb (char_at l k) "/"
            && Ascii.eqb (char_at l (k + 1)) "/").
  { injection Hb as <-. lia. }
  destruct (char_in (char_at l k) operators).
  { destruct (k + 1 <? String.length l)%nat eqn:Hn1.
    - apply Nat.ltb_lt in Hn1.
      destruct (str_in _ two_char_operators); injection Hb as <-;
        unfold add_call; lia.
    - injection Hb as <-. unfold add_call. lia. }
  injection Hb as <-. unfold err_call. lia.
Qed.

(** The scan of a line makes at most one call per character. *)
Lemma tokenize_line_budget l line_num x x' :
  tokenize_line add_call err_call l line_num x = Some x' ->
  x' <= x + String.length l.
Proof.
  unfold tokenize_line, tokenize_from. intros Hr.
  destruct (while_loop (String.length l) (in_line l)
              (tokenize_body add_call err_call l line_num) (0, x))
    as [[j r]|] eqn:Hw; [|discriminate].
  simpl in Hr. injection Hr as <-.
  apply (while_loop_post (in_line l)
           (tokenize_body add_call err_call l line_num)
           (fun '(k, y) => k <= String.length l /\ y <= x + k)
           (fun '(k, y) => y <= x + String.length l))
    with (fuel := String.length l) (s := (0, x)) (r := (j, r));
    try assumption.
  - intros [k y] [Hk Hy] _. lia.
  - intros [k y] fl [Hk Hy] Hc Hb. apply Nat.ltb_lt in Hc.
    pose proof (tokenize_body_budget l line_num k y fl Hc Hb) as H.
    destruct fl as [[j' y']|[j' y']]; lia.
  - lia.
Qed.

Lemma split_total_length (sep : ascii) (s : string) :
  list_sum (map String.length (split sep s)) <= String.length s.
Proof.
  induction s as [|c s IH]; simpl; [lia|].
  destruct (Ascii.eqb c sep); simpl; [lia|].
  destruct (split sep s) as [|h t]; simpl in *; lia.
Qed.

Lemma tokenize_lines_budget lines : forall k x x',
  tokenize_lines add_call err_call (enumerate lines k) x = Some x' ->
  x' <= x + list_sum (map String.length lines).
Proof.
  induction lines as [|l rest IH]; intros k x x' H; simpl in H.
  - injection H as <-. simpl. lia.
  - destruct (tokenize_line add_call err_call l k x) as [x1|] eqn:H1;
      [|discriminate].
    apply tokenize_line_budget in H1. apply IH in H. simpl. lia.
Qed.

(** The entries and the errors of a pass are counted by the calls. *)
Lemma analyze_calls code (st : state) :
  option_rel (fun r c => length (entries r) + length (error_list r) = c)
    (analyze code st)
    (tokenize_lines add_call err_call (enumerate (split LF code) 1) 0).
Proof.
  destruct st as [self fs]. unfold analyze. simpl.
  apply tokenize_lines_rel.
  - intros ty v ln s c H.
    rewrite entries_add_symbol, error_list_add_symbol, length_app.
    unfold add_call. simpl. lia.
  - intros msg s c H.
    rewrite entries_errors_append, error_list_errors_append, length_app.
    unfold err_call. simpl. lia.
  - reflexivity.
Qed.

(** A pass records, entries and errors together, at most as many items
    as the text has characters. *)
Lemma analyze_budget code (st : state) :
  exists st',
    analyze code st = Some st' /\
    length (entries st') + length (error_list st') <= String.length code.
Proof.
  destruct (analyze_total code st) as [st' Hrun].
  exists st'. split; [assumption|].
  pose proof (analyze_calls code st) as H. rewrite Hrun in H.
  unfold option_rel in H.
  destruct (tokenize_lines add_call err_call (enumerate (split LF code) 1) 0)
    as [c|] eqn:Hc; [|contradiction].
  apply tokenize_lines_budget in Hc.
  pose proof (split_total_length LF code). lia.
Qed.

(** X15. A pass is bounded by its text.  After [analyze], the number of
    entries plus the number of errors is at most the number of characters
    of the text: an iteration that continues makes no more calls than it
    consumes characters, and one that breaks makes at most one. *)
Theorem analyze_records_at_most_one_per_character
    (code : string) (st : state) :
  exists st',
    analyze code st = Some st' /\
    length (entries st') + length (error_list st') <= String.length code.
Proof.
  apply analyze_budget.
Qed.

(** ** More on [load] *)

(** X16. [load] appends: it never empties the table first.  Called on a
    table that already holds entries, over a file that holds what [save]
    writes for storable entries, it keeps the entries the table holds and
    appends the saved ones without their first five; calling it twice on a
    fresh table doubles them. *)
Theorem load_appends
    (self : SymbolTable.t) (fs : FileSystem) (symbols : list Symbol) :
  fs (SymbolTable.filename self) = Some (saved_contents symbols) ->
  Forall storable symbols ->
  SymbolTable.load self fs
  = Ok (SymbolTable.mk (SymbolTable.filename self)
          (SymbolTable.symbols self ++ skipn 5 symbols)%list).
Proof.
  intros Hfile H. unfold SymbolTable.load. rewrite Hfile.
  unfold saved_contents. rewrite readlines_saved by assumption.
  change (skipn 8 (?a :: ?b :: ?c :: ?l)) with (skipn 5 l).
  rewrite skipn_map, load_lines_rows by (apply Forall_skipn; assumption).
  reflexivity.
Qed.

(** The hypotheses of X16 hold for a table with one entry over a file
    saved with six. *)
Lemma load_appends_witness :
  let symbols :=
    [mkSymbol "IDENTIFICADOR" "x" 1; mkSymbol "OPERADOR" "=" 1;
     mkSymbol "NUMERO_ENTERO" "1" 1; mkSymbol "OPERADOR" ";" 1;
     mkSymbol "IDENTIFICADOR" "y" 2; mkSymbol "OPERADOR" "=" 2] in
  let self := SymbolTable.mk "t.dat" [mkSymbol "OPERADOR" "=" 2] in
  SymbolTable.load self
    (write_file empty_fs "t.dat" (saved_contents symbols))
  = Ok (SymbolTable.mk (SymbolTable.filename self)
          (SymbolTable.symbols self ++ skipn 5 symbols)%list).
Proof.
  cbv zeta.
  apply (load_appends (SymbolTable.mk "t.dat" [mkSymbol "OPERADOR" "=" 2])
           (write_file empty_fs "t.dat" _)
           [mkSymbol "IDENTIFICADOR" "x" 1; mkSymbol "OPERADOR" "=" 1;
            mkSymbol "NUMERO_ENTERO" "1" 1; mkSymbol "OPERADOR" ";" 1;
            mkSymbol "IDENTIFICADOR" "y" 2; mkSymbol "OPERADOR" "=" 2]).
  - reflexivity.
  - repeat constructor.
Defined.

Lemma count_char_app c (a b : string) :
  count_char c (a ++ b) = count_char c a + count_char c b.
Proof.
  induction a as [|d a IH]; simpl; [reflexivity|]. rewrite IH. lia.
Qed.

Lemma count_char_none c (s : string) :
  string_forall (fun d => negb (Ascii.eqb d c)) s = true ->
  count_char c s = 0.
Proof.
  induction s as [|d s IH]; simpl; [reflexivity|].
  intros H. apply andb_true_iff in H as [Hd Hs].
  apply negb_true_iff in Hd. rewrite Hd, (IH Hs). reflexivity.
Qed.

Lemma count_char_zero c (s : string) :
  count_char c s = 0 ->
  string_forall (fun d => negb (Ascii.eqb d c)) s = true.
Proof.
  induction s as [|d s IH]; simpl; [reflexivity|].
  destruct (Ascii.eqb d c); simpl; [discriminate|assumption].
Qed.

Lemma string_forall_and p q (s : string) :
  string_forall p s = true -> string_forall q s = true ->
  string_forall (fun c => p c && q c) s = true.
Proof.
  induction s as [|c s IH]; simpl; [reflexivity|].
  intros Hp Hq.
  apply andb_true_iff in Hp as [Hpc Hps].
  apply andb_true_iff in Hq as [Hqc Hqs].
  rewrite Hpc, Hqc, (IH Hps Hqs). reflexivity.
Qed.

(** What [one_line] says of the two fields. *)
Lemma one_line_fields symbol :
  one_line symbol ->
  string_forall (fun c => negb (Ascii.eqb c TAB)) (type symbol) = true /\
  string_forall (fun c => negb (Ascii.eqb c LF)) (type symbol) = true /\
  string_forall (fun c => negb (Ascii.eqb c LF)) (value symbol) = true /\
  string_forall (fun c => negb (Ascii.eqb c CR)) (type symbol) = true /\
  string_forall (fun c => negb (Ascii.eqb c CR)) (value symbol) = true.
Proof.
  intros [Hty [Hv _]].
  repeat split;
    (eapply string_forall_impl; [|eassumption]);
    intros c Hc;
    try (apply plain_char_facts in Hc; tauto);
    apply andb_true_iff in Hc; tauto.
Qed.

(** A one-line entry without a tab in its text is storable. *)
Lemma one_line_storable symbol :
  one_line symbol -> tab_free symbol = true -> storable symbol.
Proof.
  intros Hol Htab. pose proof Hol as [Hty [Hv Hstart]].
  split; [assumption|split; [|assumption]].
  apply Nat.eqb_eq, count_char_zero in Htab.
  eapply string_forall_impl; [|exact (string_forall_and _ _ _ Htab Hv)].
  intros c Hc. unfold plain_char. cbv beta in Hc.
  rewrite andb_assoc in Hc. exact Hc.
Qed.

(** The row of an entry with a tab in its text has more than three fields:
    the body of the loop of [load] skips it. *)
Lemma load_line_tab_row acc symbol :
  one_line symbol -> tab_free symbol = false ->
  SymbolTable.load_line acc (SymbolTable.row symbol) = Ok acc.
Proof.
  intros Hol Htab.
  destruct (one_line_fields symbol Hol) as [Hty _].
  destruct Hol as [_ [_ Hstart]].
  apply Nat.eqb_neq in Htab.
  destruct symbol as [ty v ln]. cbn [type value] in *.
  apply load_line_skips.
  destruct (str_of_int_fields ln) as [Hsp [Hnotab _]].
  destruct (str_of_int_plain ln) as [_ Hne].
  unfold SymbolTable.row. cbn [type value line].
  rewrite strip_row by assumption.
  rewrite !count_char_app.
  rewrite (count_char_none TAB ty) by assumption.
  rewrite (count_char_none TAB (str_of_int ln)) by assumption.
  change (count_char TAB SymbolTable.tab) with 1. lia.
Qed.

(** The loop of [load] over the rows of one-line entries keeps those
    without a tab in their text. *)
Lemma load_lines_tab_rows symbols : forall acc,
  Forall one_line symbols ->
  SymbolTable.load_lines acc (map SymbolTable.row symbols)
  = Ok (acc ++ filter tab_free symbols)%list.
Proof.
  induction symbols as [|symbol rest IH]; intros acc H; simpl.
  - rewrite app_nil_r. reflexivity.
  - inversion H as [|x l Hx Hl]; subst.
    destruct (tab_free symbol) eqn:Htab.
    + rewrite load_line_row by (apply one_line_storable; assumption).
      rewrite IH by assumption. rewrite <- app_assoc. reflexivity.
    + rewrite load_line_tab_row by assumption.
      apply IH. assumption.
Qed.

(** The rows of one-line entries are the lines of the file, tabs in the
    texts or not. *)
Lemma readlines_saved_one_line symbols :
  Forall one_line symbols ->
  readlines (saved_contents symbols)
  = ("=== TABLA DE SIMBOLOS ===" ++ SymbolTable.nl)
    :: ("Formato: Tipo | Valor | Linea" ++ SymbolTable.nl)
    :: ("---------------------------" ++ SymbolTable.nl)
    :: map SymbolTable.row symbols.
Proof.
  intros H. unfold readlines, saved_contents.
  assert (Hcr : string_forall (fun c => negb (Ascii.eqb c CR))
                  (String.concat "" (map SymbolTable.row symbols)) = true).
  { induction H as [|symbol rest Hs _ IH]; [reflexivity|].
    cbn [map]. rewrite concat_cons, string_forall_app, IH.
    destruct (one_line_fields symbol Hs) as [_ [_ [_ [Hty Hv]]]].
    destruct (str_of_int_fields (line symbol)) as [_ [_ [_ Hd]]].
    unfold SymbolTable.row.
    rewrite !string_forall_app, Hty, Hv, Hd. reflexivity. }
  assert (Hrows : keepends (String.concat "" (map SymbolTable.row symbols))
                  = map SymbolTable.row symbols).
  { clear Hcr. induction H as [|symbol rest Hs _ IH]; [reflexivity|].
    cbn [map]. rewrite concat_cons, row_fields.
    rewrite keepends_line.
    - rewrite IH. f_equal. rewrite <- row_fields. apply append_nil_r.
    - destruct (one_line_fields symbol Hs) as [_ [Hty [Hv _]]].
      destruct (str_of_int_fields (line symbol)) as [_ [_ [Hd _]]].
      rewrite !string_forall_app, Hty, Hv, Hd. reflexivity. }
  rewrite universal_newlines_id
    by (rewrite string_forall_app, Hcr; reflexivity).
  change (SymbolTable.header ++ ?x)
    with ("=== TABLA DE SIMBOLOS ===" ++ String LF
          ("Formato: Tipo | Valor | Linea" ++ String LF
           ("---------------------------" ++ String LF x))).
  rewrite !keepends_line by reflexivity.
  rewrite Hrows. reflexivity.
Qed.

(** X17. A text with a tab does not come back.  The row [save] writes for
    an entry whose text holds a tab (a string literal with a tab inside is
    such an entry) has more than three fields, and [load] skips it.  After
    [save] of entries that hold no end of line (so that each row is one line
    of the file), a fresh [SymbolTable] over the same file does not raise,
    leaves the file as it is, and holds, of the saved entries without their
    first five, those whose text holds no tab. *)
Theorem rows_with_tab_are_dropped
    (name : string) (symbols : list Symbol) (fs : FileSystem) :
  Forall one_line symbols ->
  let saved := SymbolTable.save (SymbolTable.mk name symbols) fs in
  SymbolTable.__init__ name saved
  = (Ok (SymbolTable.mk name (filter tab_free (skipn 5 symbols))), saved).
Proof.
  intros H saved.
  unfold SymbolTable.__init__, SymbolTable._create_file, exists_,
    SymbolTable.load.
  cbn [SymbolTable.filename SymbolTable.symbols].
  unfold saved. rewrite save_contents. cbn [negb].
  rewrite save_contents.
  fold (saved_contents symbols).
  rewrite readlines_saved_one_line by assumption.
  change (skipn 8 (?a :: ?b :: ?c :: ?l)) with (skipn 5 l).
  rewrite skipn_map, load_lines_tab_rows by (apply Forall_skipn; assumption).
  reflexivity.
Qed.

(** The hypothesis of X17 holds for seven entries of which the sixth is the
    STRING entry of a literal with a tab between [a] and [b]: of the sixth
    and the seventh, only the seventh comes back. *)
Lemma rows_with_tab_are_dropped_witness :
  let text :=
    String DQUOTE ("a" ++ String TAB ("b" ++ String DQUOTE "")) in
  let symbols :=
    [mkSymbol "IDENTIFICADOR" "s" 1; mkSymbol "OPERADOR" "=" 1;
     mkSymbol "NUMERO_ENTERO" "1" 1; mkSymbol "OPERADOR" ";" 1;
     mkSymbol "IDENTIFICADOR" "t" 2; mkSymbol "STRING" text 2;
     mkSymbol "OPERADOR" ";" 2] in
  let saved := SymbolTable.save (SymbolTable.mk "t.dat" symbols) empty_fs in
  SymbolTable.__init__ "t.dat" saved
  = (Ok (SymbolTable.mk "t.dat" (filter tab_free (skipn 5 symbols))), saved).
Proof.
  cbv zeta.
  apply (rows_with_tab_are_dropped "t.dat"
           [mkSymbol "IDENTIFICADOR" "s" 1; mkSymbol "OPERADOR" "=" 1;
            mkSymbol "NUMERO_ENTERO" "1" 1; mkSymbol "OPERADOR" ";" 1;
            mkSymbol "IDENTIFICADOR" "t" 2; mkSymbol "STRING" _ 2;
            mkSymbol "OPERADOR" ";" 2] empty_fs).
  repeat constructor.
Defined.
